(** * Gateway and product store of the nameko microservices example

    A shallow embedding of [products/dependencies.py] (the Redis-backed
    [StorageWrapper]) and of the order workflows of [gateway/service.py]
    ([GatewayService]), with the properties their specification states.

    Python values are modelled as follows.
    - [bytes] is Rocq's [string] (a sequence of 8-bit characters), so that
      the field name [b'id'] is the literal ["id"].
    - [str] is a list of code points ([pystr]); the UTF-8 codec between the
      two is written out, as the store encodes on write and the wrapper
      decodes on read.
    - An [int] is a [Z]; its decimal form comes from the Standard Library's
      [Decimal] printer and is read back by a model of [int(bytes)], both
      within the interpreter's limit on the digits of such a conversion.
    - A [dict] with field names as keys is a [gmap string _]; an exception
      is a value of [exn], carried by the [result] monad. *)

From Stdlib Require Import ZArith NArith Ascii String List Lia.
From Stdlib Require Import Decimal DecimalString DecimalZ DecimalPos.
From stdpp Require Import strings countable base option list fin_maps gmap.

Local Open Scope Z_scope.

(** ** Python strings, bytes and scalars *)

Abbreviation bytes := string (only parsing).
Abbreviation pystr := (list N) (only parsing).

(** A value stored in a flat dict of this program: an [int] or a [str]. *)
Inductive scalar :=
| VInt (z : Z)
| VStr (s : pystr).

#[global] Instance scalar_eq_dec : EqDecision scalar.
Proof. solve_decision. Defined.

#[global] Instance scalar_countable : Countable scalar.
Proof.
  refine (inj_countable'
            (fun v => match v with VInt z => inl z | VStr s => inr s end)
            (fun x => match x with inl z => VInt z | inr s => VStr s end) _).
  intros []; reflexivity.
Defined.

(** The key of a failed subscript: a field name ['name'], a bytes field
    name [b'name'], or a value used as a key. *)
Inductive pykey :=
| KStr (name : string)
| KBytes (name : bytes)
| KVal (v : scalar).

(** ** Exceptions and the error monad *)

Inductive exn :=
| KeyError (k : pykey)
| TypeError
| ValueError
| UnicodeEncodeError
| UnicodeDecodeError
| ResponseError                    (* redis.exceptions.ResponseError *)
| NotFound (msg : pystr)           (* products.exceptions.NotFound *)
| ProductNotFound (msg : pystr)    (* gateway.exceptions.ProductNotFound *)
| OrderNotFound (msg : pystr)      (* gateway.exceptions.OrderNotFound *)
| BadRequest (msg : pystr)         (* nameko.exceptions.BadRequest *)
| ValidationError                  (* marshmallow.ValidationError *)
| RemoteError (e : exn).           (* nameko.exceptions.RemoteError *)

Inductive result (A : Type) :=
| Ok (a : A)
| Raise (e : exn).
Arguments Ok {A} a.
Arguments Raise {A} e.

#[global] Instance result_ret : MRet result := fun A a => Ok a.
#[global] Instance result_bind : MBind result :=
  fun A B f m => match m with Ok a => f a | Raise e => Raise e end.
#[global] Instance result_fmap : FMap result :=
  fun A B f m => match m with Ok a => Ok (f a) | Raise e => Raise e end.

Definition is_ok {A} (m : result A) : bool :=
  match m with Ok _ => true | Raise _ => false end.

(** [d[k]] on a dict keyed by field names. *)
Definition getitem {V} (d : gmap string V) (k : string) : result V :=
  match d !! k with
  | Some v => Ok v
  | None => Raise (KeyError (KStr k))
  end.

(** ** ASCII literals as [str] *)

Fixpoint text (s : string) : pystr :=
  match s with
  | EmptyString => []
  | String c s' => N_of_ascii c :: text s'
  end.
#[global] Arguments text : simpl never.

(** ** The UTF-8 codec ([str.encode('utf-8')] and [bytes.decode('utf-8')])

    Both are strict: a surrogate code point does not encode, and an
    overlong form, a surrogate or a value above U+10FFFF does not decode. *)

Definition byte (n : N) : ascii := ascii_of_N n.

Definition utf8_cp (c : N) : option bytes :=
  (if c <? 0x80 then
     Some (String (byte c) "")
   else if c <? 0x800 then
     Some (String (byte (0xC0 + c / 64))
          (String (byte (0x80 + c mod 64)) ""))
   else if c <? 0x10000 then
     if (0xD800 <=? c) && (c <=? 0xDFFF) then None
     else
       Some (String (byte (0xE0 + c / 4096))
            (String (byte (0x80 + (c / 64) mod 64))
            (String (byte (0x80 + c mod 64)) "")))
   else if c <? 0x110000 then
     Some (String (byte (0xF0 + c / 262144))
          (String (byte (0x80 + (c / 4096) mod 64))
          (String (byte (0x80 + (c / 64) mod 64))
          (String (byte (0x80 + c mod 64)) ""))))
   else None)%N.

Fixpoint encode_utf8 (s : pystr) : result bytes :=
  match s with
  | [] => Ok ""%string
  | c :: s' =>
      match utf8_cp c with
      | Some b => String.app b <$> encode_utf8 s'
      | None => Raise UnicodeEncodeError
      end
  end.

Definition is_cont (b : N) : bool := ((0x80 <=? b) && (b <? 0xC0))%N.

Definition is_surrogate (c : N) : bool := ((0xD800 <=? c) && (c <=? 0xDFFF))%N.

Fixpoint decode_utf8 (b : bytes) : result pystr :=
  match b with
  | EmptyString => Ok []
  | String c0 r0 =>
      let b0 := N_of_ascii c0 in
      if (b0 <? 0x80)%N then cons b0 <$> decode_utf8 r0
      else if (b0 <? 0xC0)%N then Raise UnicodeDecodeError
      else if (b0 <? 0xE0)%N then
        match r0 with
        | String c1 r1 =>
            let b1 := N_of_ascii c1 in
            let cp := ((b0 - 0xC0) * 64 + (b1 - 0x80))%N in
            if is_cont b1 && (0x80 <=? cp)%N
            then cons cp <$> decode_utf8 r1
            else Raise UnicodeDecodeError
        | _ => Raise UnicodeDecodeError
        end
      else if (b0 <? 0xF0)%N then
        match r0 with
        | String c1 (String c2 r2) =>
            let b1 := N_of_ascii c1 in
            let b2 := N_of_ascii c2 in
            let cp := ((b0 - 0xE0) * 4096 + (b1 - 0x80) * 64 + (b2 - 0x80))%N in
            if is_cont b1 && is_cont b2 && (0x800 <=? cp)%N
               && negb (is_surrogate cp)
            then cons cp <$> decode_utf8 r2
            else Raise UnicodeDecodeError
        | _ => Raise UnicodeDecodeError
        end
      else if (b0 <? 0xF8)%N then
        match r0 with
        | String c1 (String c2 (String c3 r3)) =>
            let b1 := N_of_ascii c1 in
            let b2 := N_of_ascii c2 in
            let b3 := N_of_ascii c3 in
            let cp := ((b0 - 0xF0) * 262144 + (b1 - 0x80) * 4096
                       + (b2 - 0x80) * 64 + (b3 - 0x80))%N in
            if is_cont b1 && is_cont b2 && is_cont b3
               && (0x10000 <=? cp)%N && (cp <? 0x110000)%N
            then cons cp <$> decode_utf8 r3
            else Raise UnicodeDecodeError
        | _ => Raise UnicodeDecodeError
        end
      else Raise UnicodeDecodeError
  end.

(** A code point that [str.encode] accepts: a Unicode scalar value. *)
Definition scalar_value (c : N) : Prop :=
  (c < 0x110000)%N /\ ~ ((0xD800 <= c)%N /\ (c <= 0xDFFF)%N).

Definition valid_text (s : pystr) : Prop := Forall scalar_value s.

(** ** Decimal integers ([repr(int)] and [int(bytes)]) *)

(** [sys.int_max_str_digits]: the interpreter refuses, with [ValueError],
    to convert between an [int] and a decimal string of more digits. *)
Definition int_max_str_digits : N := 4300.

(** The decimal form of an integer. *)
Definition decimal (z : Z) : bytes := NilZero.string_of_int (Z.to_int z).

(** [bytes.isspace] for one byte. *)
Definition is_space (c : ascii) : bool :=
  let n := N_of_ascii c in ((n =? 32) || ((9 <=? n) && (n <=? 13)))%N.

Fixpoint lstrip (b : bytes) : bytes :=
  match b with
  | String c b' => if is_space c then lstrip b' else b
  | EmptyString => EmptyString
  end.

Fixpoint rstrip (b : bytes) : bytes :=
  match b with
  | String c b' =>
      match rstrip b' with
      | EmptyString => if is_space c then EmptyString else String c EmptyString
      | t => String c t
      end
  | EmptyString => EmptyString
  end.

Definition digit_of (c : ascii) : option N :=
  let n := N_of_ascii c in
  if ((48 <=? n) && (n <=? 57))%N then Some (n - 48)%N else None.

(** The number of digits in a decimal string: a sign, an underscore or a
    space is not one, a leading zero is. *)
Fixpoint count_digits (b : bytes) : N :=
  match b with
  | EmptyString => 0
  | String c b' =>
      match digit_of c with
      | Some _ => N.succ (count_digits b')
      | None => count_digits b'
      end
  end%N.

(** An [int] that converts to a string. *)
Definition int_fits (z : Z) : bool :=
  (count_digits (decimal z) <=? int_max_str_digits)%N.

(** [repr(z)], which is [str(z)]; the redis client sends an [int] as
    [repr(value).encode()]. *)
Definition repr_int (z : Z) : result bytes :=
  if int_fits z then Ok (decimal z) else Raise ValueError.

(** The digits of [int()]: at least one, with single underscores allowed
    between two digits. *)
Fixpoint int_digits (acc : N) (after_digit : bool) (b : bytes) : option N :=
  match b with
  | EmptyString => if after_digit then Some acc else None
  | String c b' =>
      match digit_of c with
      | Some d => int_digits (10 * acc + d)%N true b'
      | None =>
          if Ascii.eqb c "_" && after_digit then int_digits acc false b'
          else None
      end
  end.

(** The integer a decimal literal denotes: spaces around it, a sign, then
    the digits. *)
Definition int_literal (b : bytes) : result Z :=
  let unsigned ds :=
    match int_digits 0 false ds with
    | Some n => Ok (Z.of_N n)
    | None => Raise ValueError
    end in
  match rstrip (lstrip b) with
  | String "-" ds => Z.opp <$> unsigned ds
  | String "+" ds => unsigned ds
  | ds => unsigned ds
  end.

(** [int(b)]: a literal of more digits than the limit is refused. *)
Definition py_int (b : bytes) : result Z :=
  if (int_max_str_digits <? count_digits b)%N then Raise ValueError
  else int_literal b.

(** The text of [str(v)], which [format_str] returns when the conversion
    is allowed. *)
Definition py_str (v : scalar) : pystr :=
  match v with
  | VStr s => s
  | VInt z => text (decimal z)
  end.

(** [str(v)], as f-strings and [str.format] evaluate it: an [int] beyond
    the digit limit is refused. *)
Definition format_str (v : scalar) : result pystr :=
  match v with
  | VStr s => Ok s
  | VInt z => text <$> repr_int z
  end.


(** ** The Redis client, as far as the store uses it

    The database maps a key to a hash, and a hash maps a field to a value;
    keys, fields and values are bytes.  The client encodes a [str] argument
    as UTF-8 and an [int] argument as its decimal form; the server prints
    and reads integers by itself, within 64 bits. *)

Abbreviation redis_hash := (gmap string string) (only parsing).
Abbreviation redis := (gmap string (gmap string string)) (only parsing).

Definition encode_value (v : scalar) : result bytes :=
  match v with
  | VInt z => repr_int z
  | VStr s => encode_utf8 s
  end.

(** The encoded value of a field, when it encodes. *)
Definition encoded (v : scalar) : option string :=
  match encode_value v with
  | Ok b => Some b
  | Raise _ => None
  end.

(** The values of a mapping, encoded one after the other; the first that
    does not encode raises.  (A [gmap] keeps no insertion order: when
    several values do not encode, the error is that of the first in the
    map's own order.) *)
Definition encode_mapping (mapping : gmap string scalar)
  : result (gmap string string) :=
  map_fold (fun f v acc =>
              fields ← acc;
              b ← encode_value v;
              Ok (<[f := b]> fields))
           (Ok ∅) mapping.

(** HGETALL: the hash at [key], empty when there is none. *)
Definition hgetall (client : redis) (key : pystr) : result redis_hash :=
  k ← encode_utf8 key;
  Ok (default ∅ (client !! k)).

(** HMSET: every field of [mapping] is written into the hash at [key];
    the other fields of that hash stay. *)
Definition hmset (client : redis) (key : pystr) (mapping : gmap string scalar)
  : result redis :=
  k ← encode_utf8 key;
  fields ← encode_mapping mapping;
  Ok (<[k := fields ∪ default ∅ (client !! k)]> client).

(** DEL of one key: the number of keys removed. *)
Definition del (client : redis) (key : pystr) : result (Z * redis) :=
  k ← encode_utf8 key;
  match client !! k with
  | Some _ => Ok (1, delete k client)
  | None => Ok (0, client)
  end.

Definition in_int64 (z : Z) : bool :=
  (- 2 ^ 63 <=? z) && (z <? 2 ^ 63).

(** The integer a Redis value holds: its canonical decimal form only,
    within 64 bits. *)
Definition redis_ll (b : bytes) : result Z :=
  match int_literal b with
  | Ok z =>
      if String.eqb (decimal z) b && in_int64 z then Ok z
      else Raise ResponseError
  | Raise _ => Raise ResponseError
  end.

(** HINCRBY: the client sends the key, the field and the increment; on the
    server a missing key or field counts as 0 and is created. *)
Definition hincrby (client : redis) (key : pystr) (field : pystr) (incr : Z)
  : result (Z * redis) :=
  k ← encode_utf8 key;
  f ← encode_utf8 field;
  _ ← repr_int incr;
  let h := default ∅ (client !! k) in
  old ← match h !! f with
        | Some b => redis_ll b
        | None => Ok 0
        end;
  if in_int64 incr && in_int64 (old + incr)
  then Ok (old + incr, <[k := <[f := decimal (old + incr)]> h]> client)
  else Raise ResponseError.

(** ** [products/dependencies.py]: [StorageWrapper] *)

Module Products.

(** [document[name]] on a hash read from Redis. *)
Definition field (document : redis_hash) (name : bytes) : result bytes :=
  match document !! name with
  | Some b => Ok b
  | None => Raise (KeyError (KBytes name))
  end.

Definition _format_key (product_id : scalar) : result pystr :=
  id ← format_str product_id;
  Ok (text "products:" ++ id).

Definition _from_hash (document : redis_hash) : result (gmap string scalar) :=
  id ← field document "id" ≫= decode_utf8;
  title ← field document "title" ≫= decode_utf8;
  passenger_capacity ← field document "passenger_capacity" ≫= py_int;
  maximum_speed ← field document "maximum_speed" ≫= py_int;
  in_stock ← field document "in_stock" ≫= py_int;
  Ok (<["id" := VStr id]>
      (<["title" := VStr title]>
      (<["passenger_capacity" := VInt passenger_capacity]>
      (<["maximum_speed" := VInt maximum_speed]>
      (<["in_stock" := VInt in_stock]> ∅))))).

Definition get (client : redis) (product_id : scalar)
  : result (gmap string scalar) :=
  key ← _format_key product_id;
  product ← hgetall client key;
  if decide (product = ∅)
  then
    id ← format_str product_id;
    Raise (NotFound (text "Product ID " ++ id ++ text " does not exist"))
  else _from_hash product.

Definition create (client : redis) (product : gmap string scalar)
  : result redis :=
  id ← getitem product "id";
  key ← _format_key id;
  hmset client key product.

(** The loop over the pipeline's results: an empty result is skipped,
    any other is decoded and appended. *)
Fixpoint decode_results (results : list redis_hash)
  : result (list (gmap string scalar)) :=
  match results with
  | [] => Ok []
  | r :: results' =>
      if decide (r = ∅) then decode_results results'
      else
        p ← _from_hash r;
        products ← decode_results results';
        Ok (p :: products)
  end.

Definition find_order_details_by_id (client : redis) (orders_id : list scalar)
  : result (list (gmap string scalar)) :=
  keys ← mapM _format_key orders_id;
  results ← mapM (hgetall client) keys;
  products ← decode_results results;
  match products with
  | [] => Raise (NotFound (text "No products found for the given IDs."))
  | _ => Ok products
  end.

Definition delete (client : redis) (product_id : scalar)
  : result (Z * redis) :=
  key ← _format_key product_id;
  '(n, client') ← del client key;
  if decide (n = 0)
  then
    id ← format_str product_id;
    Raise (NotFound (text "Product ID " ++ id ++ text " does not exist"))
  else Ok (n, client').

Definition decrement_stock (client : redis) (product_id : scalar) (amount : Z)
  : result (Z * redis) :=
  key ← _format_key product_id;
  hincrby client key (text "in_stock") (- amount).

End Products.

(** ** [max] and [min] of two arguments, as the interpreter computes them

    [max(a, b)] keeps [a] unless [b > a]; [min(a, b)] keeps [a] unless
    [b < a].  An [int] and a [str] do not compare. *)

Fixpoint str_ltb (s t : pystr) : bool :=
  match s, t with
  | _, [] => false
  | [], _ :: _ => true
  | a :: s', b :: t' => (a <? b)%N || ((a =? b)%N && str_ltb s' t')
  end.

Definition py_lt (a b : scalar) : result bool :=
  match a, b with
  | VInt x, VInt y => Ok (x <? y)
  | VStr s, VStr t => Ok (str_ltb s t)
  | _, _ => Raise TypeError
  end.

Definition py_max (a b : scalar) : result scalar :=
  greater ← py_lt a b;
  Ok (if greater : bool then b else a).

Definition py_min (a b : scalar) : result scalar :=
  less ← py_lt b a;
  Ok (if less : bool then b else a).

(** ** The services the gateway calls *)

(** A value of an enriched order line: a scalar, or a product dict. *)
Inductive pyval :=
| PScalar (v : scalar)
| PDict (d : gmap string scalar).

(** An order as the orders service returns it; [I] is the type of a line. *)
Record order_of (I : Type) := Order {
  order_id : Z;
  order_details : list I;
}.
Arguments Order {I} _ _.
Arguments order_id {I} _.
Arguments order_details {I} _.

Abbreviation order := (order_of (gmap string scalar)) (only parsing).

(** The same order with its lines replaced. *)
Definition with_details {I J} (o : order_of I) (details : list J) : order_of J :=
  Order (order_id o) details.

(** The orders service is a black box behind its three RPC methods; an
    exception it raises arrives as the gateway sees it. *)
Class OrdersService := {
  orders_state : Type;
  get_order : Z -> orders_state -> result order;
  list_orders : scalar -> scalar -> orders_state -> result (list order);
  create_order :
    list (gmap string scalar) -> orders_state ->
    result (gmap string scalar) * orders_state;
}.

Module ProductsService.

(** Modelled from the spec: products/service.py is not among the
    sources.  The products service is a thin facade over the store and
    adds nothing to it, so its [get_products_by_id(ids)] is the store's
    batch get. *)
Definition get_products_by_id (client : redis) (products_id : list scalar)
  : result (list (gmap string scalar)) :=
  Products.find_order_details_by_id client products_id.

End ProductsService.

(** Modelled from the spec: gateway/exceptions.py is not among the
    sources.  A [NotFound] of the products service crosses the RPC boundary
    as the gateway's typed [ProductNotFound]; any other remote exception
    arrives as a generic [RemoteError]. *)
Definition from_products (e : exn) : exn :=
  match e with
  | NotFound msg => ProductNotFound msg
  | _ => RemoteError e
  end.

(** Modelled from the spec: gateway/entrypoints.py is not among the
    sources.  The not-found errors map to a 404 response, a bad request or
    a validation error to 400, and anything unexpected to a server error;
    the body carries the exception's message. *)
Definition http_status (e : exn) : Z :=
  match e with
  | ProductNotFound _ | OrderNotFound _ => 404
  | BadRequest _ | ValidationError => 400
  | _ => 500
  end.

(** ** [gateway/service.py]: [GatewayService] *)

Module Gateway.
Section Service.

Context {orders : OrdersService}.

(** [nameko.config]; the settings the gateway reads are text. *)
Variable config : gmap string (list N).

(** [CreateOrderSchema().dump(order_data).data]: the serialization
    library is outside the program. *)
Variable CreateOrderSchema_dump :
  gmap string (list (gmap string scalar)) ->
  gmap string (list (gmap string scalar)).

(** An RPC call the gateway has issued. *)
Inductive rpc :=
| products_get_products_by_id (products_id : list scalar)
| orders_get_order (order_id : Z)
| orders_list_orders (page limit : scalar)
| orders_create_order (order_details : list (gmap string scalar)).

(** What lies behind the gateway: the product store, the orders service,
    and the log of the RPC calls issued so far. *)
Record world := World {
  products_db : gmap string (gmap string string);
  orders_db : orders_state;
  rpc_log : list rpc;
}.

(** A gateway computation: it may raise, and it may call out. *)
Definition gw (A : Type) : Type := world -> result A * world.

#[local] Instance gw_ret : MRet gw := fun A a w => (Ok a, w).
#[local] Instance gw_bind : MBind gw :=
  fun A B f m w =>
    match m w with
    | (Ok a, w') => f a w'
    | (Raise e, w') => (Raise e, w')
    end.

Definition lift {A} (r : result A) : gw A := fun w => (r, w).

Definition called (c : rpc) (w : world) : world :=
  World (products_db w) (orders_db w) (rpc_log w ++ [c]).

Definition products_rpc_get_products_by_id (products_id : list scalar)
  : gw (list (gmap string scalar)) :=
  fun w =>
    let w' := called (products_get_products_by_id products_id) w in
    match ProductsService.get_products_by_id (products_db w) products_id with
    | Ok products => (Ok products, w')
    | Raise e => (Raise (from_products e), w')
    end.

Definition orders_rpc_get_order (order_id : Z) : gw order :=
  fun w =>
    (get_order order_id (orders_db w), called (orders_get_order order_id) w).

Definition orders_rpc_list_orders (page limit : scalar) : gw (list order) :=
  fun w =>
    (list_orders page limit (orders_db w),
     called (orders_list_orders page limit) w).

Definition orders_rpc_create_order (details : list (gmap string scalar))
  : gw (gmap string scalar) :=
  fun w =>
    let '(r, db) := create_order details (orders_db w) in
    (r, World (products_db w) db (rpc_log w ++ [orders_create_order details])).

(** [{product['id']: product for product in products_data}] *)
Fixpoint product_map_of (products_data : list (gmap string scalar))
                        (acc : gmap scalar (gmap string scalar))
  : result (gmap scalar (gmap string scalar)) :=
  match products_data with
  | [] => Ok acc
  | product :: rest =>
      id ← getitem product "id";
      product_map_of rest (<[id := product]> acc)
  end.

(** One turn of the enrichment loop of [_get_order]. *)
Definition enrich (product_map : gmap scalar (gmap string scalar))
                  (image_root : list N) (item : gmap string scalar)
  : result (gmap string pyval) :=
  product_id ← getitem item "product_id";
  product ← match product_map !! product_id with
            | Some p => Ok p
            | None => Raise (KeyError (KVal product_id))
            end;
  id ← format_str product_id;
  let image := image_root ++ text "/" ++ id ++ text ".jpg" in
  Ok (<["image" := PScalar (VStr image)]>
      (<["product" := PDict product]> (PScalar <$> item))).

Definition _get_order (order_id : Z) : gw (order_of (gmap string pyval)) :=
  order ← orders_rpc_get_order order_id;
  products_id ← lift (mapM (fun item => getitem item "product_id")
                           (order_details order));
  products_data ← products_rpc_get_products_by_id products_id;
  product_map ← lift (product_map_of products_data ∅);
  image_root ← lift (getitem config "PRODUCT_IMAGE_ROOT");
  details ← lift (mapM (enrich product_map image_root)
                       (order_details order));
  mret (with_details order details).

(** [request.args.get(name, default=...)]: the parameter as the text
    the URL carries when it is given, the default otherwise. *)
Definition args_get (args : gmap string (list N)) (name : string)
                    (default : scalar) : scalar :=
  match args !! name with
  | Some s => VStr s
  | None => default
  end.

Definition get_orders (args : gmap string (list N)) : gw (list order) :=
  page ← lift (py_max (VInt 1) (args_get args "page" (VInt 1)));
  limit ← lift (py_min (VInt 10) (args_get args "limit" (VInt 10)));
  orders_rpc_list_orders page limit.

(** The loop of [_create_order] that reports a missing product. *)
Fixpoint report_missing (unique_product_ids missing_products_id : list scalar)
  : result unit :=
  match unique_product_ids with
  | [] => Ok ()
  | unique_product_id :: rest =>
      if decide (unique_product_id ∈ missing_products_id)
      then report_missing rest missing_products_id
      else
        id ← format_str unique_product_id;
        Raise (ProductNotFound (text "Product Id " ++ id))
  end.

Definition _create_order (order_data : gmap string (list (gmap string scalar)))
  : gw scalar :=
  items ← lift (getitem order_data "order_details");
  unique_product_ids ← lift (mapM (fun item => getitem item "product_id") items);
  order_details ← products_rpc_get_products_by_id unique_product_ids;
  _ ← (if decide (length order_details ≠ length unique_product_ids)
       then
         missing_products_id ←
           lift (mapM (fun item => getitem item "product_id") order_details);
         lift (report_missing unique_product_ids missing_products_id)
       else mret ());
  serialized_data ← mret (CreateOrderSchema_dump order_data);
  details ← lift (getitem serialized_data "order_details");
  result ← orders_rpc_create_order details;
  lift (getitem result "id").

End Service.
End Gateway.

(** ** Notions the properties are stated with *)

(** An id the client can send: it converts to text, and the text encodes. *)
Definition sendable (product_id : scalar) : Prop :=
  is_ok (format_str product_id) = true ∧ valid_text (py_str product_id).

(** The store holds a record under the id's key. *)
Definition has_record (client : gmap string (gmap string string))
                      (product_id : scalar) : bool :=
  match Products._format_key product_id ≫= hgetall client with
  | Ok h => bool_decide (h ≠ ∅)
  | Raise _ => false
  end.

(** A well-typed product record. *)
Definition product_record (id title : list N)
                          (passenger_capacity maximum_speed in_stock : Z)
  : gmap string scalar :=
  <["id" := VStr id]>
  (<["title" := VStr title]>
  (<["passenger_capacity" := VInt passenger_capacity]>
  (<["maximum_speed" := VInt maximum_speed]>
  (<["in_stock" := VInt in_stock]> ∅)))).

(** The product a stored hash decodes to: its [id] and [title] read as
    UTF-8 text, its three other fields as decimal integers. *)
Definition decodes_to (h : gmap string string) (p : gmap string scalar) : Prop :=
  ∃ bid btitle bcap bspeed bstock id title cap speed stock,
    h !! "id" = Some bid ∧ decode_utf8 bid = Ok id
    ∧ h !! "title" = Some btitle ∧ decode_utf8 btitle = Ok title
    ∧ h !! "passenger_capacity" = Some bcap ∧ py_int bcap = Ok cap
    ∧ h !! "maximum_speed" = Some bspeed ∧ py_int bspeed = Ok speed
    ∧ h !! "in_stock" = Some bstock ∧ py_int bstock = Ok stock
    ∧ p = product_record id title cap speed stock.

(** The store holds under the id's key a record that decodes to [p]. *)
Definition record_of (client : gmap string (gmap string string))
                     (product_id : scalar) (p : gmap string scalar) : Prop :=
  ∃ key h, Products._format_key product_id = Ok key
           ∧ hgetall client key = Ok h
           ∧ h ≠ ∅
           ∧ decodes_to h p.

(** An order line with its product and image attached: the line's own
    fields, a [product] field, and an [image] field made of the image
    root, a slash, the product id and [.jpg]. *)
Definition enriched_line (image_root : list N) (item product : gmap string scalar)
  : gmap string pyval :=
  let product_id := default (VStr []) (item !! "product_id") in
  <["image" := PScalar (VStr (image_root ++ text "/"
                              ++ py_str product_id ++ text ".jpg"))]>
  (<["product" := PDict product]> (PScalar <$> item)).

#[global] Instance scalar_value_dec c : Decision (scalar_value c).
Proof. unfold scalar_value. apply _. Defined.

#[global] Instance valid_text_dec s : Decision (valid_text s).
Proof. unfold valid_text. apply _. Defined.

#[global] Instance sendable_dec v : Decision (sendable v).
Proof. unfold sendable. apply _. Defined.

#[global] Instance pykey_eq_dec : EqDecision pykey.
Proof. solve_decision. Defined.

#[global] Instance exn_eq_dec : EqDecision exn.
Proof. solve_decision. Defined.

#[global] Instance result_eq_dec `{EqDecision A} : EqDecision (result A).
Proof. solve_decision. Defined.

#[global] Instance pyval_eq_dec : EqDecision pyval.
Proof. solve_decision. Defined.

#[global] Instance order_of_eq_dec `{EqDecision L} : EqDecision (order_of L).
Proof. solve_decision. Defined.

#[global] Instance rpc_eq_dec : EqDecision Gateway.rpc.
Proof. solve_decision. Defined.

(** ** Example data

    The airship of the store's tests and the two books of the gateway's
    docstrings, as Redis holds them; an orders service that numbers the
    orders it is given; and order lines. *)

Definition product_hash (id title passenger_capacity maximum_speed in_stock : string)
  : gmap string string :=
  <["id" := id]>
  (<["title" := title]>
  (<["passenger_capacity" := passenger_capacity]>
  (<["maximum_speed" := maximum_speed]>
  (<["in_stock" := in_stock]> ∅)))).

Definition example_store : gmap string (gmap string string) :=
  <["products:LZ129" := product_hash "LZ129" "LZ 129 Hindenburg" "50" "135" "11"]>
  (<["products:the_odyssey" := product_hash "the_odyssey" "The Odyssey" "101" "5" "10"]>
  (<["products:the_enigma" := product_hash "the_enigma" "The Enigma" "4" "7" "2"]> ∅)).

Definition line (product_id price : string) (quantity : Z) : gmap string scalar :=
  <["product_id" := VStr (text product_id)]>
  (<["price" := VStr (text price)]>
  (<["quantity" := VInt quantity]> ∅)).

Definition numbering_orders : OrdersService := {|
  orders_state := list (order_of (gmap string scalar));
  get_order wanted db :=
    match List.find (fun o => Z.eqb (order_id o) wanted) db with
    | Some o => Ok o
    | None => Raise (OrderNotFound (text "Order not found"))
    end;
  list_orders page limit db := Ok db;
  create_order details db :=
    let id := Z.of_nat (length db) + 1 in
    (Ok {["id" := VInt id]}, db ++ [Order id details]);
|}.

Definition example_config : gmap string (list N) :=
  {["PRODUCT_IMAGE_ROOT" := text "http://www.example.com/airship/images"]}.

(** The world with [example_store] behind the products service and the
    given orders already placed. *)
Definition example_world (placed : list (order_of (gmap string scalar)))
  : @Gateway.world numbering_orders :=
  @Gateway.World numbering_orders example_store placed [].

(** The schema dump of the examples leaves the payload as it is. *)
Definition plain_dump (order_data : gmap string (list (gmap string scalar)))
  : gmap string (list (gmap string scalar)) := order_data.

Definition the_odyssey : gmap string scalar :=
  product_record (text "the_odyssey") (text "The Odyssey") 101 5 10.

Definition the_enigma : gmap string scalar :=
  product_record (text "the_enigma") (text "The Enigma") 4 7 2.

(** An order of three lines over two products. *)
Definition order_1234 : order_of (gmap string scalar) :=
  Order 1234 [line "the_odyssey" "99.99" 1;
              line "the_enigma" "5.99" 2;
              line "the_odyssey" "89.99" 4].

(** A payload with one unknown product among two known ones. *)
Definition payload_with_unknown : gmap string (list (gmap string scalar)) :=
  {["order_details" := [line "the_odyssey" "99.99" 1;
                        line "no_such_book" "5.99" 2;
                        line "the_enigma" "5.99" 2]]}.

(** ** Invariants of the store *)

(** Every hash the store holds decodes as a product.  Redis keeps no empty
    hash, and neither does such a store: an empty hash has no [b'id']. *)
Definition decodable (client : gmap string (gmap string string)) : Prop :=
  map_Forall (fun _ h => is_ok (Products._from_hash h) = true) client.

#[global] Instance decodable_dec client : Decision (decodable client).
Proof. unfold decodable. apply _. Defined.

(** A full, well-typed product record. *)
Definition is_product_record (p : gmap string scalar) : Prop :=
  ∃ id title passenger_capacity maximum_speed in_stock,
    p = product_record id title passenger_capacity maximum_speed in_stock.

(** * Properties *)

Import Products Gateway.

(** ** The codecs invert each other *)

Local Ltac Zify.zify_post_hook ::= Z.to_euclidean_division_equations.

Lemma byte_value n : (n < 256)%N -> N_of_ascii (byte n) = n.
Proof. apply N_ascii_embedding. Qed.

Ltac cmp_by_lia :=
  repeat match goal with
  | |- context [N.ltb ?a ?b] =>
      first [ replace (N.ltb a b) with true by (symmetry; apply N.ltb_lt; lia)
            | replace (N.ltb a b) with false by (symmetry; apply N.ltb_ge; lia) ]
  | |- context [N.leb ?a ?b] =>
      first [ replace (N.leb a b) with true by (symmetry; apply N.leb_le; lia)
            | replace (N.leb a b) with false by (symmetry; apply N.leb_gt; lia) ]
  end.

Ltac cmp_hyps :=
  repeat match goal with
  | H : (_ <? _)%N = _ |- _ => first [apply N.ltb_lt in H | apply N.ltb_ge in H]
  | H : (_ && _) = true |- _ => apply andb_true_iff in H; destruct H
  | H : (_ && _) = false |- _ => apply andb_false_iff in H; destruct H
  | H : (_ <=? _)%N = _ |- _ => first [apply N.leb_le in H | apply N.leb_gt in H]
  end.

Lemma decode_utf8_cp c b rest :
  utf8_cp c = Some b ->
  decode_utf8 (b +:+ rest) = cons c <$> decode_utf8 rest.
Proof.
  unfold utf8_cp.
  change 4096%N with (64 * 64)%N; change 262144%N with (64 * 64 * 64)%N.
  rewrite <- !N.Div0.div_div.
  repeat case_match; intros [= <-]; cmp_hyps;
    cbv [String.append]; cbn [decode_utf8]; unfold is_cont, is_surrogate;
    rewrite !byte_value by lia; cmp_by_lia; cbn [andb negb].
  all: try done; f_equal; f_equal; lia.
Qed.

Lemma encode_decode_utf8 s b : encode_utf8 s = Ok b -> decode_utf8 b = Ok s.
Proof.
  revert b. induction s as [|c s IH]; intros b; cbn [encode_utf8].
  - by intros [= <-].
  - destruct (utf8_cp c) as [bc|] eqn:Hc; [|done].
    destruct (encode_utf8 s) as [bs|] eqn:Hs; [|done].
    intros [= <-]. rewrite (decode_utf8_cp _ _ _ Hc), (IH _ eq_refl). done.
Qed.

Lemma utf8_cp_scalar_value c : scalar_value c -> is_Some (utf8_cp c).
Proof.
  intros [Hlt Hs]. unfold utf8_cp.
  repeat case_match; cmp_hyps; try done; lia.
Qed.

Lemma encode_utf8_valid s : valid_text s -> exists b, encode_utf8 s = Ok b.
Proof.
  induction 1 as [|c s Hc _ [b IH]]; cbn [encode_utf8]; [by eexists|].
  destruct (utf8_cp_scalar_value c Hc) as [bc ->]. rewrite IH. by eexists.
Qed.


Lemma valid_text_text s : valid_text (text s).
Proof.
  induction s as [|c s IH]; [constructor|].
  change (text (String c s)) with (N_of_ascii c :: text s).
  constructor; [|done]. pose proof (N_ascii_bounded c). split; lia.
Qed.

(** The decimal form of an integer reads back as the same integer. *)

Ltac eval_digit :=
  match goal with
  | |- context [digit_of ?c] =>
      let v := eval vm_compute in (digit_of c) in
      change (digit_of c) with v; cbv iota beta
  end.

Lemma int_digits_uint_pos d p :
  int_digits (Npos p) true (NilEmpty.string_of_uint d)
  = Some (Npos (Pos.of_uint_acc d p)).
Proof.
  revert p. induction d; intros p; [done | ..];
    cbn [NilEmpty.string_of_uint int_digits Pos.of_uint_acc]; eval_digit;
    rewrite <- IHd; f_equal; lia.
Qed.

Lemma int_digits_uint d :
  int_digits 0 true (NilEmpty.string_of_uint d) = Some (Pos.of_uint d).
Proof.
  induction d; [done | ..];
    cbn [NilEmpty.string_of_uint int_digits Pos.of_uint]; eval_digit;
    [exact IHd | rewrite <- int_digits_uint_pos; f_equal; lia ..].
Qed.

Lemma int_digits_uint_start d :
  d <> Nil ->
  int_digits 0 false (NilEmpty.string_of_uint d) = Some (Pos.of_uint d).
Proof.
  destruct d; intros Hd; [done | ..];
    cbn [NilEmpty.string_of_uint int_digits Pos.of_uint]; eval_digit;
    [apply int_digits_uint | rewrite <- int_digits_uint_pos; f_equal; lia ..].
Qed.

Lemma no_space_strip b :
  (forall c, In c (list_ascii_of_string b) -> is_space c = false) ->
  rstrip (lstrip b) = b.
Proof.
  intros Hb. assert (lstrip b = b) as ->.
  { destruct b as [|c b]; [done|]. cbn. by rewrite Hb by (by left). }
  induction b as [|c b IH]; [done|]. cbn [rstrip].
  rewrite IH by (intros; apply Hb; by right).
  destruct b; [|done]. by rewrite Hb by (by left).
Qed.

Lemma uint_no_space d c :
  In c (list_ascii_of_string (NilEmpty.string_of_uint d)) -> is_space c = false.
Proof.
  induction d; cbn; [done | intros [<- | ?]; [done | auto] ..].
Qed.

Lemma int_literal_decimal z : int_literal (decimal z) = Ok z.
Proof.
  unfold int_literal, decimal.
  destruct z as [|p|p]; [done | ..]; cbn [Z.to_int NilZero.string_of_int].
  - assert (Pos.to_uint p <> Nil) as Hnil.
    { intros H. pose proof (DecimalPos.Unsigned.of_to p) as E. by rewrite H in E. }
    assert (NilZero.string_of_uint (Pos.to_uint p)
            = NilEmpty.string_of_uint (Pos.to_uint p)) as ->.
    { by destruct (Pos.to_uint p). }
    rewrite no_space_strip by apply uint_no_space.
    pose proof (int_digits_uint_start _ Hnil) as E.
    rewrite DecimalPos.Unsigned.of_to in E.
    destruct (Pos.to_uint p) eqn:Hd; [done | ..]; cbn [NilEmpty.string_of_uint] in *; by rewrite E.
  - assert (Pos.to_uint p <> Nil) as Hnil.
    { intros H. pose proof (DecimalPos.Unsigned.of_to p) as E. by rewrite H in E. }
    assert (NilZero.string_of_uint (Pos.to_uint p)
            = NilEmpty.string_of_uint (Pos.to_uint p)) as ->.
    { by destruct (Pos.to_uint p). }
    rewrite no_space_strip.
    2:{ intros c [<- | Hc]; [done | by eapply uint_no_space]. }
    rewrite (int_digits_uint_start _ Hnil), DecimalPos.Unsigned.of_to. done.
Qed.

Lemma repr_int_Ok z b : repr_int z = Ok b ↔ int_fits z = true ∧ b = decimal z.
Proof.
  unfold repr_int. destruct (int_fits z); split; try done.
  - by intros [= <-].
  - by intros [_ ->].
  - by intros [[=] _].
Qed.

Lemma repr_int_raises z e : repr_int z = Raise e → e = ValueError.
Proof. unfold repr_int. destruct (int_fits z); [done | by intros [= <-]]. Qed.

(** What [repr] prints, [int] reads back as the same integer. *)
Lemma py_int_decimal z : int_fits z = true → py_int (decimal z) = Ok z.
Proof.
  unfold py_int, int_fits. intros Hz%N.leb_le.
  destruct (N.ltb_spec int_max_str_digits (count_digits (decimal z))); [lia|].
  apply int_literal_decimal.
Qed.

Lemma py_int_repr_int z b : repr_int z = Ok b → py_int b = Ok z.
Proof. intros [Hz ->]%repr_int_Ok. by apply py_int_decimal. Qed.

(** An integer of 64 bits is far within the digit limit. *)

Lemma nb_digits_double d :
  (nb_digits (Little.double d) ≤ S (nb_digits d))%nat
  ∧ (nb_digits (Little.succ_double d) ≤ S (nb_digits d))%nat.
Proof.
  induction d as [|d [IH1 IH2]|d [IH1 IH2]|d [IH1 IH2]|d [IH1 IH2]|d [IH1 IH2]
                  |d [IH1 IH2]|d [IH1 IH2]|d [IH1 IH2]|d [IH1 IH2]|d [IH1 IH2]];
    cbn [Little.double Little.succ_double nb_digits]; lia.
Qed.

Lemma nb_digits_to_little_uint p :
  (nb_digits (Pos.to_little_uint p) ≤ Pos.size_nat p)%nat.
Proof.
  induction p as [p IH|p IH|]; cbn [Pos.to_little_uint Pos.size_nat nb_digits];
    [pose proof (proj2 (nb_digits_double (Pos.to_little_uint p)))
    |pose proof (proj1 (nb_digits_double (Pos.to_little_uint p)))|]; lia.
Qed.

Lemma size_nat_bound n p : Z.pos p < 2 ^ Z.of_nat n → (Pos.size_nat p ≤ n)%nat.
Proof.
  revert p. induction n as [|n IH]; intros p.
  - change (2 ^ Z.of_nat 0) with 1. lia.
  - rewrite Nat2Z.inj_succ, Z.pow_succ_r by lia.
    destruct p as [p|p|]; cbn [Pos.size_nat]; intros Hp; [| |lia];
      apply le_n_S, IH; lia.
Qed.

Lemma count_digits_uint d :
  count_digits (NilEmpty.string_of_uint d) = N.of_nat (nb_digits d).
Proof.
  induction d; [done | ..];
    cbn [NilEmpty.string_of_uint count_digits nb_digits]; eval_digit;
    rewrite IHd; lia.
Qed.

Lemma count_digits_pos p :
  (count_digits (NilZero.string_of_uint (Pos.to_uint p))
   ≤ N.of_nat (Pos.size_nat p))%N.
Proof.
  assert (Pos.to_uint p <> Nil) as Hnil.
  { intros H. pose proof (DecimalPos.Unsigned.of_to p) as E. by rewrite H in E. }
  assert (NilZero.string_of_uint (Pos.to_uint p)
          = NilEmpty.string_of_uint (Pos.to_uint p)) as ->.
  { by destruct (Pos.to_uint p). }
  rewrite count_digits_uint. unfold Pos.to_uint.
  rewrite DecimalFacts.nb_digits_rev.
  pose proof (nb_digits_to_little_uint p). lia.
Qed.

Lemma in_int64_fits z : in_int64 z = true → int_fits z = true.
Proof.
  unfold in_int64, int_fits, int_max_str_digits, decimal.
  intros [H1%Z.leb_le H2%Z.ltb_lt]%andb_true_iff. apply N.leb_le.
  destruct z as [|p|p]; [done | ..]; cbn [Z.to_int NilZero.string_of_int count_digits];
    [|eval_digit];
    pose proof (count_digits_pos p);
    pose proof (size_nat_bound 64 p);
    assert (Z.pos p < 2 ^ Z.of_nat 64) by (change (2 ^ Z.of_nat 64) with (2 * 2 ^ 63); lia);
    lia.
Qed.

Lemma digit_of_bound c d : digit_of c = Some d → (d ≤ 9)%N.
Proof.
  unfold digit_of. destruct (N.leb_spec 48 (N_of_ascii c)); [|done].
  destruct (N.leb_spec (N_of_ascii c) 57); [|done]. cbn. intros [= <-]. lia.
Qed.

(** A decimal literal of [k] digits denotes a number below [10 ^ k]. *)
Lemma int_digits_bound b acc after n :
  int_digits acc after b = Some n →
  (n < (acc + 1) * 10 ^ count_digits b)%N.
Proof.
  revert acc after. induction b as [|c b IH]; intros acc after; cbn [int_digits count_digits].
  - destruct after; [|done]. intros [= <-]. rewrite N.pow_0_r. lia.
  - destruct (digit_of c) as [d|] eqn:Hd.
    + intros Hn%IH. apply digit_of_bound in Hd. rewrite N.pow_succ_r'.
      set (P := (10 ^ count_digits b)%N) in *. nia.
    + destruct (Ascii.eqb c "_" && after); [|done]. apply IH.
Qed.

(** An integer of at least [10 ^ n] has more than [n] digits. *)
Lemma digits_of_a_large_number z n :
  10 ^ Z.of_N n ≤ Z.abs z → (n < count_digits (decimal z))%N.
Proof.
  intros Hz.
  assert (∃ p, Z.abs z = Z.pos p ∧ count_digits (decimal z)
                                   = count_digits (NilEmpty.string_of_uint (Pos.to_uint p)))
    as (p & Hp & ->).
  { assert (∀ p, NilZero.string_of_uint (Pos.to_uint p)
                 = NilEmpty.string_of_uint (Pos.to_uint p)) as Hnz.
    { intros p. destruct (Pos.to_uint p) eqn:Hd; try done.
      pose proof (DecimalPos.Unsigned.of_to p) as E. by rewrite Hd in E. }
    unfold decimal. destruct z as [|p|p]; cbn [Z.to_int NilZero.string_of_int Z.abs].
    - cbn [Z.abs] in Hz. pose proof (Z.pow_pos_nonneg 10 (Z.of_N n)). lia.
    - exists p. by rewrite Hnz.
    - exists p. rewrite Hnz. split; [done|]. cbn [count_digits]. by eval_digit. }
  rewrite Hp in Hz.
  assert (Pos.to_uint p <> Nil) as Hnil.
  { intros H. pose proof (DecimalPos.Unsigned.of_to p) as E. by rewrite H in E. }
  pose proof (int_digits_uint_start _ Hnil) as E.
  rewrite DecimalPos.Unsigned.of_to in E. apply int_digits_bound in E.
  rewrite N.add_0_l, N.mul_1_l in E.
  apply (N.pow_lt_mono_r_iff 10); [lia|].
  eapply N.le_lt_trans; [|exact E].
  apply N2Z.inj_le. rewrite N2Z.inj_pow. exact Hz.
Qed.

Lemma int_fits_beyond z : 10 ^ 4300 ≤ Z.abs z → int_fits z = false.
Proof.
  intros Hz%(digits_of_a_large_number z int_max_str_digits).
  unfold int_fits. by apply N.leb_gt.
Qed.

Lemma format_str_Ok v s : format_str v = Ok s → s = py_str v.
Proof.
  destruct v as [z|t]; cbn; [|by intros [= <-]].
  destruct (repr_int z) as [b|] eqn:Hb; [|done].
  apply repr_int_Ok in Hb as [_ ->]. by intros [= <-].
Qed.

Lemma format_str_is_ok v : is_ok (format_str v) = true → format_str v = Ok (py_str v).
Proof.
  destruct (format_str v) as [s|] eqn:Hs; [|done].
  by apply format_str_Ok in Hs as ->.
Qed.

Lemma format_str_raises v e : format_str v = Raise e → e = ValueError.
Proof.
  destruct v as [z|t]; cbn; [|done].
  destruct (repr_int z) as [b|] eqn:Hb; [done|].
  apply repr_int_raises in Hb as ->. by intros [= <-].
Qed.

(** ** The values of a mapping, as the client sends them *)

Lemma encode_mapping_spec (mapping : gmap string scalar) :
  match encode_mapping mapping with
  | Ok fields =>
      map_Forall (λ _ v, is_ok (encode_value v) = true) mapping
      ∧ fields = omap encoded mapping
  | Raise e => ∃ f v, mapping !! f = Some v ∧ encode_value v = Raise e
  end.
Proof.
  unfold encode_mapping.
  apply (map_fold_weak_ind
           (λ (r : result (gmap string string)) (m : gmap string scalar),
              match r with
              | Ok fields =>
                  map_Forall (λ _ v, is_ok (encode_value v) = true) m
                  ∧ fields = omap encoded m
              | Raise e => ∃ f v, m !! f = Some v ∧ encode_value v = Raise e
              end)).
  - split; [apply map_Forall_empty | by rewrite omap_empty].
  - intros f v m r Hf IH. destruct r as [fields|e]; cbn [mbind result_bind].
    + destruct IH as [Hall ->].
      destruct (encode_value v) as [b|e] eqn:Hv; cbn [mbind result_bind].
      * split; [apply map_Forall_insert_2; [by rewrite Hv | done]|].
        symmetry. apply omap_insert_Some. unfold encoded. by rewrite Hv.
      * exists f, v. by rewrite lookup_insert_eq.
    + destruct IH as (f' & v' & Hf' & Hv'). exists f', v'. split; [|done].
      rewrite lookup_insert_ne; [done|]. intros <-. congruence.
Qed.

Lemma encode_mapping_Ok (mapping : gmap string scalar) :
  map_Forall (λ _ v, is_ok (encode_value v) = true) mapping →
  encode_mapping mapping = Ok (omap encoded mapping).
Proof.
  intros Hall. pose proof (encode_mapping_spec mapping) as H.
  destruct (encode_mapping mapping) as [fields|e].
  - by destruct H as [_ ->].
  - destruct H as (f & v & Hf & Hv). specialize (Hall f v Hf). cbn in Hall.
    by rewrite Hv in Hall.
Qed.

(** ** The product store *)

Lemma format_key_Ok id key :
  _format_key id = Ok key →
  format_str id = Ok (py_str id) ∧ key = text "products:" ++ py_str id.
Proof.
  unfold _format_key. destruct (format_str id) as [s|] eqn:Hs; [|done].
  apply format_str_Ok in Hs as ->. cbn. by intros [= <-].
Qed.

Lemma format_key_raises id e : _format_key id = Raise e → e = ValueError.
Proof.
  unfold _format_key. destruct (format_str id) as [s|] eqn:Hs; [done|].
  apply format_str_raises in Hs as ->. by intros [= <-].
Qed.

Lemma sendable_format_key id :
  sendable id → _format_key id = Ok (text "products:" ++ py_str id).
Proof. intros [Hf%format_str_is_ok _]. unfold _format_key. by rewrite Hf. Qed.

Lemma sendable_key id :
  sendable id → ∃ k, encode_utf8 (text "products:" ++ py_str id) = Ok k.
Proof.
  intros [_ Hid]. apply encode_utf8_valid.
  apply Forall_app; split; [apply valid_text_text | done].
Qed.

Lemma sendable_hgetall client id :
  sendable id -> exists key h, _format_key id = Ok key ∧ hgetall client key = Ok h.
Proof.
  intros Hid. destruct (sendable_key id Hid) as [k Hk].
  eexists _, _. split; [by apply sendable_format_key|].
  unfold hgetall. by rewrite Hk.
Qed.

(** [get] and [has_record], once the key is formatted and read. *)
Lemma get_unfold client id key h :
  _format_key id = Ok key → hgetall client key = Ok h →
  get client id
  = if decide (h = ∅)
    then Raise (NotFound (text "Product ID " ++ py_str id ++ text " does not exist"))
    else _from_hash h.
Proof.
  intros Hkey Hh. unfold get. rewrite Hkey. cbn [mbind result_bind].
  rewrite Hh. cbn [mbind result_bind].
  apply format_key_Ok in Hkey as [-> _]. done.
Qed.

Lemma has_record_unfold client id key h :
  _format_key id = Ok key → hgetall client key = Ok h →
  has_record client id = bool_decide (h ≠ ∅).
Proof.
  intros Hkey Hh. unfold has_record. rewrite Hkey. cbn [mbind result_bind].
  by rewrite Hh.
Qed.

Lemma decode_results_hits client ids keys results :
  mapM _format_key ids = Ok keys →
  mapM (hgetall client) keys = Ok results ->
  decode_results results = mapM (get client) (filter (has_record client) ids).
Proof.
  revert keys results. induction ids as [|id ids IH]; intros keys results; cbn [mapM].
  - intros [= <-] [= <-]. done.
  - destruct (_format_key id) as [key|] eqn:Hkey; [|done]. cbn [mbind result_bind].
    destruct (mapM _format_key ids) as [keys'|]; [|done]. cbn.
    intros [= <-]. cbn [mapM].
    destruct (hgetall client key) as [h|] eqn:Hh; [|done]. cbn.
    destruct (mapM (hgetall client) keys') as [rs|] eqn:Hrs; [|done].
    cbn. intros [= <-]. specialize (IH _ _ eq_refl Hrs). cbn [decode_results].
    rewrite (has_record_unfold _ _ _ _ Hkey Hh).
    destruct (decide (h = ∅)) as [Hempty|Hempty].
    + rewrite bool_decide_eq_false_2 by tauto. exact IH.
    + rewrite bool_decide_eq_true_2 by done. rewrite decide_True by done.
      cbn [mapM]. rewrite (get_unfold _ _ _ _ Hkey Hh), decide_False by done.
      destruct (_from_hash h); [|done]. cbn. by rewrite IH.
Qed.

Lemma sendable_keys client ids :
  Forall sendable ids →
  ∃ keys results, mapM _format_key ids = Ok keys
                  ∧ mapM (hgetall client) keys = Ok results.
Proof.
  induction 1 as [|id ids Hid _ (keys & rs & Hkeys & Hrs)]; [by exists [], []|].
  destruct (sendable_hgetall client id Hid) as (key & h & Hkey & Hh).
  exists (key :: keys), (h :: rs). cbn [mapM]. by rewrite Hkey, Hkeys, Hh, Hrs.
Qed.

(** The batch get is the single get over the hits, in request order. *)
Lemma find_order_details_by_id_hits client ids :
  Forall sendable ids ->
  find_order_details_by_id client ids =
    match mapM (get client) (filter (has_record client) ids) with
    | Ok [] => Raise (NotFound (text "No products found for the given IDs."))
    | r => r
    end.
Proof.
  intros Hids. unfold find_order_details_by_id.
  destruct (sendable_keys client ids Hids) as (keys & results & Hkeys & Hres).
  rewrite Hkeys. cbn [mbind result_bind]. rewrite Hres. cbn.
  rewrite (decode_results_hits _ _ _ _ Hkeys Hres).
  by destruct (mapM (get client) _) as [[|]|].
Qed.

(** A batch get that returns has sent every key. *)
Lemma find_order_details_by_id_Ok client ids products :
  find_order_details_by_id client ids = Ok products →
  products ≠ []
  ∧ mapM (get client) (filter (has_record client) ids) = Ok products.
Proof.
  unfold find_order_details_by_id.
  destruct (mapM _format_key ids) as [keys|] eqn:Hkeys; [|done].
  cbn [mbind result_bind].
  destruct (mapM (hgetall client) keys) as [rs|] eqn:Hrs; [|done].
  cbn. rewrite (decode_results_hits _ _ _ _ Hkeys Hrs).
  destruct (mapM (get client) _) as [[|p ps]|]; cbn; [done | | done].
  by intros [= <-].
Qed.

Lemma mapM_result_length {A B} (f : A -> result B) l k :
  mapM f l = Ok k -> length k = length l.
Proof.
  revert k. induction l as [|a l IH]; intros k; cbn; [by intros [= <-]|].
  destruct (f a); [|done]. cbn. destruct (mapM f l); [|done]. cbn.
  intros [= <-]. cbn. f_equal. by apply IH.
Qed.

Lemma mapM_result_Forall2 {A B} (f : A -> result B) l k :
  mapM f l = Ok k <-> Forall2 (fun a b => f a = Ok b) l k.
Proof.
  revert k. induction l as [|a l IH]; intros k; cbn.
  - split; [intros [= <-]; constructor | by inversion 1].
  - split.
    + destruct (f a) eqn:Ha; [|done]. cbn. destruct (mapM f l); [|done]. cbn.
      intros [= <-]. constructor; [done|]. by apply IH.
    + inversion 1 as [|? b ? k' Ha Hl]; subst. rewrite Ha. cbn.
      apply IH in Hl. by rewrite Hl.
Qed.

Lemma mapM_result_is_ok {A B} (f : A → result B) l :
  Forall (λ a, is_ok (f a)) l → ∃ k, mapM f l = Ok k.
Proof.
  induction 1 as [|a l Ha _ [k IH]]; [by eexists|]. cbn.
  destruct (f a); [|done]. rewrite IH. by eexists.
Qed.

(** What [_from_hash] returns is what the hash decodes to. *)
Lemma from_hash_decodes h p : _from_hash h = Ok p ↔ decodes_to h p.
Proof.
  unfold _from_hash, field, decodes_to. split.
  - destruct (h !! "id") as [b1|]; [|done]. cbn [mbind result_bind].
    destruct (decode_utf8 b1) as [id|] eqn:H1; [|done]. cbn [mbind result_bind].
    destruct (h !! "title") as [b2|]; [|done]. cbn [mbind result_bind].
    destruct (decode_utf8 b2) as [title|] eqn:H2; [|done]. cbn [mbind result_bind].
    destruct (h !! "passenger_capacity") as [b3|]; [|done]. cbn [mbind result_bind].
    destruct (py_int b3) as [cap|] eqn:H3; [|done]. cbn [mbind result_bind].
    destruct (h !! "maximum_speed") as [b4|]; [|done]. cbn [mbind result_bind].
    destruct (py_int b4) as [speed|] eqn:H4; [|done]. cbn [mbind result_bind].
    destruct (h !! "in_stock") as [b5|]; [|done]. cbn [mbind result_bind].
    destruct (py_int b5) as [stock|] eqn:H5; [|done]. cbn [mbind result_bind].
    intros [= <-]. by exists b1, b2, b3, b4, b5, id, title, cap, speed, stock.
  - intros (b1 & b2 & b3 & b4 & b5 & id & title & cap & speed & stock
            & -> & H1 & -> & H2 & -> & H3 & -> & H4 & -> & H5 & ->).
    cbn [mbind result_bind]. rewrite H1, H2, H3, H4, H5. done.
Qed.

(** What [get] returns is the record the store holds under the id. *)
Lemma get_record_of client id p : get client id = Ok p ↔ record_of client id p.
Proof.
  unfold record_of. split.
  - unfold get. destruct (_format_key id) as [key|] eqn:Hkey; [|done].
    cbn [mbind result_bind]. destruct (hgetall client key) as [h|] eqn:Hh; [|done].
    cbn [mbind result_bind]. case_decide as Hne.
    { by destruct (format_str id). }
    intros Hp%from_hash_decodes. by exists key, h.
  - intros (key & h & Hkey & Hh & Hne & Hp%from_hash_decodes).
    by rewrite (get_unfold _ _ _ _ Hkey Hh), decide_False.
Qed.

(** C4, amended.  For a requested sequence of ids the client can send,
    over a store in which the record of every requested id that has one
    decodes to a product, the batch get returns exactly the decoded
    products of the [k] requested positions whose id has a matching record,
    in request order (the others are filtered out), and it fails, with
    [NotFound], exactly when [k = 0]. *)
Theorem batch_get_returns_the_hits client orders_id :
  Forall sendable orders_id →
  Forall (λ id, has_record client id → ∃ p, record_of client id p) orders_id →
  let hits := filter (has_record client) orders_id in
  let k := length hits in
  match find_order_details_by_id client orders_id with
  | Ok products =>
      k ≠ 0%nat ∧ length products = k ∧ Forall2 (record_of client) hits products
  | Raise e =>
      e = NotFound (text "No products found for the given IDs.") ∧ k = 0%nat
  end.
Proof.
  intros Hids Hrec hits k. rewrite find_order_details_by_id_hits by done.
  destruct (mapM_result_is_ok (get client) hits) as [products Hp].
  { apply Forall_forall. intros id [Hhit Hin]%list_elem_of_filter.
    rewrite Forall_forall in Hrec. destruct (Hrec id Hin Hhit) as [p Hrecord].
    apply get_record_of in Hrecord. by rewrite Hrecord. }
  fold hits. rewrite Hp. pose proof (mapM_result_length _ _ _ Hp) as Hlen.
  apply mapM_result_Forall2 in Hp.
  assert (Forall2 (record_of client) hits products) as Hall.
  { eapply Forall2_impl; [exact Hp|]. intros id p. apply get_record_of. }
  subst k. destruct products as [|p ps]; cbn in Hlen |- *; rewrite <- Hlen; done.
Qed.

(** C10.  The batch get keeps order and multiplicity on hits: it returns
    [products] exactly when [products] is non-empty and lists, position by
    position and in request order, the decoded record of every requested
    position whose id has a matching record; an existing id requested
    twice therefore contributes two entries. *)
Theorem batch_get_keeps_order_and_multiplicity client orders_id products :
  Forall sendable orders_id →
  find_order_details_by_id client orders_id = Ok products ↔
  products ≠ []
  ∧ Forall2 (λ id p, get client id = Ok p)
            (filter (has_record client) orders_id) products.
Proof.
  intros Hids. rewrite <- mapM_result_Forall2. split.
  - apply find_order_details_by_id_Ok.
  - intros [Hne Hp]. rewrite find_order_details_by_id_hits, Hp by done.
    by destruct products.
Qed.

Lemma from_hash_fields (h : gmap string string) id title cap speed stock bid btitle :
  h !! "id" = Some bid → h !! "title" = Some btitle →
  h !! "passenger_capacity" = Some (decimal cap) →
  h !! "maximum_speed" = Some (decimal speed) →
  h !! "in_stock" = Some (decimal stock) →
  encode_utf8 id = Ok bid → encode_utf8 title = Ok btitle →
  int_fits cap = true → int_fits speed = true → int_fits stock = true →
  _from_hash h = Ok (product_record id title cap speed stock).
Proof.
  intros H1 H2 H3 H4 H5 Eid Etitle Hcap Hspeed Hstock. unfold _from_hash, field.
  rewrite H1, H2, H3, H4, H5. cbn [mbind result_bind].
  rewrite (encode_decode_utf8 _ _ Eid), (encode_decode_utf8 _ _ Etitle).
  cbn [mbind result_bind]. rewrite !py_int_decimal by done. done.
Qed.

(** What [hmset] writes, and when. *)
Lemma hmset_Ok client key k mapping :
  encode_utf8 key = Ok k →
  map_Forall (λ _ v, is_ok (encode_value v) = true) mapping →
  hmset client key mapping
  = Ok (<[k := omap encoded mapping ∪ default ∅ (client !! k)]> client).
Proof.
  intros Hk Hall. unfold hmset. rewrite Hk. cbn [mbind result_bind].
  by rewrite (encode_mapping_Ok _ Hall).
Qed.

Lemma hmset_inv client key mapping client' :
  hmset client key mapping = Ok client' →
  ∃ k, encode_utf8 key = Ok k
       ∧ map_Forall (λ _ v, is_ok (encode_value v) = true) mapping
       ∧ client' = <[k := omap encoded mapping ∪ default ∅ (client !! k)]> client.
Proof.
  unfold hmset. destruct (encode_utf8 key) as [k|]; [|done].
  cbn [mbind result_bind]. pose proof (encode_mapping_spec mapping) as H.
  destruct (encode_mapping mapping) as [fields|]; [|done].
  destruct H as [Hall ->]. cbn [mbind result_bind]. intros [= <-]. by exists k.
Qed.

Lemma hgetall_insert (client : gmap string (gmap string string)) key k h :
  encode_utf8 key = Ok k → hgetall (<[k := h]> client) key = Ok h.
Proof. intros Hk. unfold hgetall. rewrite Hk. cbn. by rewrite lookup_insert_eq. Qed.

Lemma product_record_encodes id title cap speed stock bid btitle :
  encode_utf8 id = Ok bid → encode_utf8 title = Ok btitle →
  int_fits cap = true → int_fits speed = true → int_fits stock = true →
  map_Forall (λ _ v, is_ok (encode_value v) = true)
             (product_record id title cap speed stock).
Proof.
  intros Eid Etitle Hcap Hspeed Hstock. unfold product_record.
  do 5 (apply map_Forall_insert_2;
        [cbn [encode_value]; unfold repr_int;
         by rewrite ?Eid, ?Etitle, ?Hcap, ?Hspeed, ?Hstock|]).
  apply map_Forall_empty.
Qed.

(** C7, amended.  For a well-typed product record whose [id] and [title]
    are text that encodes (no lone surrogate) and whose
    [passenger_capacity], [maximum_speed] and [in_stock] are integers within
    the digit limit of the conversion to a string, [create] succeeds on any
    store and a following [get] of the record's id returns a dict equal to
    the record: the values survive the UTF-8 and decimal encoding of the
    store and their decoding by [_from_hash]. *)
Theorem create_then_get_round_trip client id title cap speed stock :
  valid_text id → valid_text title →
  int_fits cap = true → int_fits speed = true → int_fits stock = true →
  ∃ client',
    create client (product_record id title cap speed stock) = Ok client'
    ∧ get client' (VStr id) = Ok (product_record id title cap speed stock).
Proof.
  intros Hid Htitle Hcap Hspeed Hstock.
  destruct (encode_utf8_valid id Hid) as [bid Eid].
  destruct (encode_utf8_valid title Htitle) as [btitle Etitle].
  destruct (encode_utf8_valid (text "products:" ++ id)) as [k Ek].
  { apply Forall_app; split; [apply valid_text_text | done]. }
  unfold create.
  change (getitem (product_record id title cap speed stock) "id") with (Ok (VStr id)).
  cbn [mbind result_bind].
  change (_format_key (VStr id)) with (Ok (text "products:" ++ id)).
  cbn [mbind result_bind].
  rewrite (hmset_Ok _ _ _ _ Ek) by by eapply product_record_encodes.
  eexists. split; [done|].
  rewrite (get_unfold _ (VStr id) _ _ eq_refl (hgetall_insert _ _ _ _ Ek)).
  set (fields := omap _ (product_record id title cap speed stock)).
  assert (∀ name v b, product_record id title cap speed stock !! name = Some v →
                      encode_value v = Ok b →
                      (fields ∪ default ∅ (client !! k)) !! name = Some b) as Hf.
  { intros name v b Hv Hb. apply lookup_union_Some_l. unfold fields.
    rewrite lookup_omap, Hv. cbn. unfold encoded. by rewrite Hb. }
  assert (∀ z, int_fits z = true → encode_value (VInt z) = Ok (decimal z)) as Hz.
  { intros z Hfit. cbn. unfold repr_int. by rewrite Hfit. }
  rewrite decide_False.
  2:{ intros Hempty. apply (f_equal (.!! "id")) in Hempty.
      by rewrite (Hf "id" (VStr id) bid eq_refl Eid) in Hempty. }
  apply from_hash_fields with (bid := bid) (btitle := btitle); try done.
  - by apply (Hf _ (VStr id)).
  - by apply (Hf _ (VStr title)).
  - apply (Hf _ (VInt cap)); [done | by apply Hz].
  - apply (Hf _ (VInt speed)); [done | by apply Hz].
  - apply (Hf _ (VInt stock)); [done | by apply Hz].
Qed.

Lemma from_hash_record h p :
  _from_hash h = Ok p →
  ∃ id title cap speed stock, p = product_record id title cap speed stock.
Proof.
  unfold _from_hash.
  destruct (field h "id" ≫= decode_utf8) as [id|]; [|done].
  destruct (field h "title" ≫= decode_utf8) as [title|]; [|done].
  destruct (field h "passenger_capacity" ≫= py_int) as [cap|]; [|done].
  destruct (field h "maximum_speed" ≫= py_int) as [speed|]; [|done].
  destruct (field h "in_stock" ≫= py_int) as [stock|]; [|done].
  cbn [mbind result_bind]. intros [= <-]. by exists id, title, cap, speed, stock.
Qed.

Lemma get_record client product_id p :
  get client product_id = Ok p →
  ∃ id title cap speed stock, p = product_record id title cap speed stock.
Proof.
  intros (key & h & _ & _ & _ & Hp%from_hash_decodes)%get_record_of.
  by eapply from_hash_record.
Qed.

Lemma mapM_result_elem {A B} (f : A → result B) l k a :
  mapM f l = Ok k → a ∈ l → ∃ b, f a = Ok b ∧ b ∈ k.
Proof.
  rewrite mapM_result_Forall2. intros H Ha.
  induction H as [|a' b l' k' Hab _ IH]; [by apply elem_of_nil in Ha|].
  apply elem_of_cons in Ha as [->|Ha].
  - exists b. split; [done | by left].
  - destruct (IH Ha) as (b' & ? & ?). exists b'. split; [done | by right].
Qed.

(** ** Order creation *)

Lemma getitem_Some {V} (d : gmap string V) k v : d !! k = Some v → getitem d k = Ok v.
Proof. unfold getitem. by intros ->. Qed.

Section Workflows.
Context {orders : OrdersService}.
Variable dump : gmap string (list (gmap string scalar)) → gmap string (list (gmap string scalar)).

(** A batch get that returns fewer products than were asked for sends
    [_create_order] into its reporting branch, whose first step reads
    ['product_id'] from a product and raises [KeyError]: the products carry
    ['id']. *)
Lemma create_order_partial_miss order_data items ids products (w : world) :
  order_data !! "order_details" = Some items →
  mapM (λ item, getitem item "product_id") items = Ok ids →
  find_order_details_by_id (products_db w) ids = Ok products →
  length products ≠ length ids →
  _create_order dump order_data w
  = (Raise (KeyError (KStr "product_id")),
     called (products_get_products_by_id ids) w).
Proof.
  intros Hdata Hids Hfind Hlen.
  unfold _create_order, mbind, gw_bind, lift. rewrite (getitem_Some _ _ _ Hdata), Hids.
  unfold products_rpc_get_products_by_id, ProductsService.get_products_by_id.
  rewrite Hfind, decide_True by done.
  apply find_order_details_by_id_Ok in Hfind as [Hne Hget].
  destruct products as [|p ps]; [done|].
  apply mapM_result_Forall2 in Hget. inversion Hget as [|id0 ? ids0 ? Hp _ Hf]; subst.
  apply get_record in Hp as (id & title & cap & speed & stock & ->).
  reflexivity.
Qed.

(** C2.  When some line of the payload references a product with no record
    in the store, [_create_order] raises, the orders service is left as it
    was, and the RPC calls issued contain no [create_order]: the error
    comes strictly before the delegation. *)
Theorem no_create_order_when_a_product_is_missing
    order_data items item product_id (w : world) :
  order_data !! "order_details" = Some items →
  item ∈ items →
  item !! "product_id" = Some product_id →
  has_record (products_db w) product_id = false →
  ∃ e w', _create_order dump order_data w = (Raise e, w')
    ∧ orders_db w' = orders_db w
    ∧ ∃ calls, rpc_log w' = rpc_log w ++ calls
               ∧ ∀ details, orders_create_order details ∉ calls.
Proof.
  intros Hdata Hitem Hpid Hmiss.
  destruct (mapM (λ item, getitem item "product_id") items) as [ids|e] eqn:Hids.
  2:{ exists e, w. split_and!; [|done|].
      - unfold _create_order, mbind, gw_bind, lift.
        by rewrite (getitem_Some _ _ _ Hdata), Hids.
      - exists []. rewrite app_nil_r. split; [done|]. intros d. apply not_elem_of_nil. }
  destruct (mapM_result_elem _ _ _ _ Hids Hitem) as (pid & Hget & Hin).
  rewrite (getitem_Some _ _ _ Hpid) in Hget. injection Hget as <-.
  destruct (find_order_details_by_id (products_db w) ids) as [products|e] eqn:Hfind.
  - eexists _, _. split; [eapply create_order_partial_miss; try done|].
    + apply find_order_details_by_id_Ok in Hfind as [_ Hget].
      apply mapM_result_length in Hget. rewrite Hget.
      assert (length (filter (has_record (products_db w)) ids) < length ids)%nat;
        [|lia].
      apply (length_filter_lt _ _ product_id); [done|].
      intros H. cbn beta in H. by rewrite Hmiss in H.
    + split; [done|]. eexists. split; [done|].
      intros d [=]%list_elem_of_singleton.
  - exists (from_products e), (called (products_get_products_by_id ids) w).
    split_and!; [|done|].
    + unfold _create_order, mbind, gw_bind, lift.
      rewrite (getitem_Some _ _ _ Hdata), Hids.
      unfold products_rpc_get_products_by_id, ProductsService.get_products_by_id.
      by rewrite Hfind.
    + eexists. split; [done|]. intros d [=]%list_elem_of_singleton.
Qed.
End Workflows.

Lemma find_order_details_by_id_all_hits client ids products :
  Forall2 (λ id p, get client id = Ok p) ids products →
  products ≠ [] →
  find_order_details_by_id client ids = Ok products.
Proof.
  intros Hall Hne. unfold find_order_details_by_id.
  assert (∃ keys results, mapM _format_key ids = Ok keys
                          ∧ mapM (hgetall client) keys = Ok results
                          ∧ decode_results results = Ok products)
    as (keys & rs & -> & Hrs & Hdec).
  { clear Hne.
    induction Hall as [|id p ids ps Hp _ (keys & rs & Hkeys & Hrs & Hdec)];
      [by exists [], []|].
    apply get_record_of in Hp as (key & h & Hkey & Hh & Hempty & Hp%from_hash_decodes).
    exists (key :: keys), (h :: rs). cbn [mapM]. rewrite Hkey, Hkeys, Hh, Hrs.
    split_and!; [done..|].
    cbn [decode_results]. rewrite decide_False by done. by rewrite Hp, Hdec. }
  cbn [mbind result_bind]. rewrite Hrs. cbn [mbind result_bind]. rewrite Hdec.
  cbn [mbind result_bind]. by destruct products.
Qed.

(** ** Order retrieval *)

Lemma product_map_of_sound products acc m :
  product_map_of products acc = Ok m →
  ∀ k p, m !! k = Some p →
         (p ∈ products ∧ p !! "id" = Some k) ∨ acc !! k = Some p.
Proof.
  revert acc. induction products as [|q products IH]; intros acc; cbn [product_map_of].
  - intros [= <-]. auto.
  - unfold getitem. destruct (q !! "id") as [qid|] eqn:Hq; [|done].
    cbn [mbind result_bind]. intros Hm k p Hk.
    destruct (IH _ Hm k p Hk) as [[Hin Hid]|Hacc].
    + left. split; [by right | done].
    + destruct (decide (qid = k)) as [->|Hne].
      * rewrite lookup_insert_eq in Hacc. injection Hacc as <-.
        left. split; [by left | done].
      * rewrite lookup_insert_ne in Hacc by done. by right.
Qed.

Lemma product_map_of_complete products acc :
  Forall (λ p, is_Some (p !! "id")) products →
  ∃ m, product_map_of products acc = Ok m
       ∧ (∀ k, is_Some (acc !! k) → is_Some (m !! k))
       ∧ ∀ p k, p ∈ products → p !! "id" = Some k → is_Some (m !! k).
Proof.
  intros Hids. revert acc.
  induction Hids as [|q products [qid Hq] _ IH]; intros acc; cbn [product_map_of].
  - exists acc. split_and!; [done..|]. by intros p k ?%elem_of_nil.
  - unfold getitem. rewrite Hq. cbn [mbind result_bind].
    destruct (IH (<[qid := q]> acc)) as (m & Hm & Hacc & Hin).
    exists m. split_and!; [done | |].
    + intros k Hk. apply Hacc. rewrite lookup_insert.
      case_decide; [by eexists | done].
    + intros p k [->|Hp]%elem_of_cons Hk.
      * apply Hacc. assert (k = qid) as -> by congruence.
        rewrite lookup_insert_eq. by eexists.
      * by eapply Hin.
Qed.

Lemma get_format_str client id p : get client id = Ok p → format_str id = Ok (py_str id).
Proof.
  intros (key & h & Hkey & _)%get_record_of. by apply format_key_Ok in Hkey as [? _].
Qed.

Section Retrieval.
Context {orders : OrdersService}.
Variable config : gmap string (list N).

(** The enrichment loop succeeds when the product map covers every line. *)
Lemma enrichment_total products_data product_map image_root items :
  product_map_of products_data ∅ = Ok product_map →
  Forall is_product_record products_data →
  Forall (λ item, ∃ product_id product,
                    item !! "product_id" = Some product_id
                    ∧ product ∈ products_data
                    ∧ product !! "id" = Some product_id) items →
  ∃ details, mapM (enrich product_map image_root) items = Ok details.
Proof.
  intros Hmap Hrecords Hitems. apply mapM_result_is_ok.
  eapply Forall_impl; [exact Hitems|].
  intros item (product_id & product & Hpid & Hin & Hid).
  assert (∃ s, product_id = VStr s) as [s ->].
  { rewrite Forall_forall in Hrecords.
    destruct (Hrecords _ Hin) as (id & ? & ? & ? & ? & ->).
    exists id. unfold product_record in Hid. rewrite lookup_insert_eq in Hid.
    congruence. }
  unfold enrich, getitem.
  rewrite Hpid. cbn [mbind result_bind].
  destruct (product_map_of_complete products_data ∅) as (m & Hm & _ & Hall).
  { clear -Hmap. revert Hmap. generalize (∅ : gmap scalar (gmap string scalar)).
    induction products_data as [|q ps IH]; intros acc; [done|].
    cbn [product_map_of]. unfold getitem. destruct (q !! "id") eqn:Hq; [|done].
    cbn [mbind result_bind]. intros Hm. constructor; [by eexists | by eapply IH]. }
  rewrite Hmap in Hm. injection Hm as <-.
  destruct (Hall product (VStr s) Hin Hid) as [p ->]. done.
Qed.

Lemma enrich_lines db (m : gmap scalar (gmap string scalar)) image_root
      (every : list (gmap string scalar)) items products :
  (∀ p k, p ∈ every → p !! "id" = Some k → is_Some (m !! k)) →
  (∀ k p, m !! k = Some p → p ∈ every ∧ p !! "id" = Some k) →
  (∀ q, q ∈ every → ∃ qid, get db qid = Ok q ∧ q !! "id" = Some qid) →
  Forall2 (λ item p, ∃ pid, item !! "product_id" = Some pid
                            ∧ get db pid = Ok p
                            ∧ p !! "id" = Some pid ∧ p ∈ every)
          items products →
  mapM (enrich m image_root) items
  = Ok (zip_with (enriched_line image_root) items products).
Proof.
  intros Hdom Hsound Hprod Hall. apply mapM_result_Forall2.
  induction Hall as [|item p its ps (pid & Hpid & Hp & Hid & Hin) _ IH];
    cbn [zip_with]; constructor; [|exact IH].
  unfold enrich, enriched_line. rewrite (getitem_Some _ _ _ Hpid), Hpid.
  cbn [mbind result_bind]. change (default _ (Some pid)) with pid.
  destruct (Hdom p pid Hin Hid) as [p' Hp'].
  rewrite Hp'. cbn [mbind result_bind].
  destruct (Hsound pid p' Hp') as [Hin' Hid'].
  destruct (Hprod p' Hin') as (qid & Hq & Hqid).
  assert (qid = pid) as -> by congruence. assert (p' = p) as -> by congruence.
  by rewrite (get_format_str _ _ _ Hp).
Qed.

(** C8, amended.  For an existing order with at least one line, each line
    referencing a product that exists (the store holds a record under the
    line's [product_id], carrying that id), [_get_order] returns the order
    with every line augmented with a [product] field holding that product
    and an [image] field equal to the configured image root, a slash, the
    product id and [.jpg]. *)
Theorem get_order_enriches_each_line order_id order image_root products (w : world) :
  get_order order_id (orders_db w) = Ok order →
  order_details order ≠ [] →
  config !! "PRODUCT_IMAGE_ROOT" = Some image_root →
  Forall2 (λ item product,
             ∃ product_id, item !! "product_id" = Some product_id
                           ∧ get (products_db w) product_id = Ok product
                           ∧ product !! "id" = Some product_id)
          (order_details order) products →
  (_get_order config order_id w).1
  = Ok (with_details order
          (zip_with (enriched_line image_root) (order_details order) products)).
Proof.
  intros Horder Hne Hroot Hall.
  unfold _get_order, mbind, gw_bind, lift, orders_rpc_get_order. rewrite Horder.
  assert (∃ ids, mapM (λ item, getitem item "product_id") (order_details order) = Ok ids
                 ∧ Forall2 (λ id p, get (products_db w) id = Ok p) ids products)
    as (ids & -> & Hget).
  { clear Hne. induction Hall as [|item p its ps (pid & Hpid & Hp & Hid) _ (ids & Hids & Hps)].
    - by exists [].
    - exists (pid :: ids). cbn [mapM]. rewrite (getitem_Some _ _ _ Hpid).
      cbn [mbind result_bind]. rewrite Hids. split; [done|]. by constructor. }
  unfold products_rpc_get_products_by_id, ProductsService.get_products_by_id.
  cbn [products_db called fst snd].
  rewrite (find_order_details_by_id_all_hits _ _ _ Hget).
  2:{ intros ->. apply Forall2_nil_inv_r in Hall. done. }
  destruct (product_map_of_complete products ∅) as (m & Hm & _ & Hdom).
  { eapply Forall2_Forall_r; [exact Hall|]. apply Forall_true.
    intros item p (pid & _ & _ & Hid). by eexists. }
  rewrite Hm, (getitem_Some _ _ _ Hroot).
  rewrite (enrich_lines (products_db w) m image_root products _ products); [done|done|..].
  - intros k p Hk.
    destruct (product_map_of_sound products ∅ m Hm k p Hk) as [|Hacc]; [done|].
    by rewrite lookup_empty in Hacc.
  - intros q [i Hq]%list_elem_of_lookup_1.
    destruct (Forall2_lookup_r _ _ _ _ _ Hall Hq) as (item & _ & pid & _ & ? & ?).
    by exists pid.
  - apply Forall2_same_length_lookup. split; [by eapply Forall2_length|].
    intros i item p Hi Hp.
    destruct (Forall2_lookup_lr _ _ _ _ _ _ Hall Hi Hp) as (pid & ? & ? & ?).
    exists pid. split_and!; [done..|]. by eapply list_elem_of_lookup_2.
Qed.
End Retrieval.

Lemma find_products_have_id client ids products :
  find_order_details_by_id client ids = Ok products →
  Forall (λ p, is_Some (p !! "id")) products.
Proof.
  intros [_ Hget]%find_order_details_by_id_Ok.
  apply mapM_result_Forall2 in Hget. eapply Forall2_Forall_r; [exact Hget|].
  apply Forall_true. intros id p (? & ? & ? & ? & ? & ->)%get_record. by eexists.
Qed.

Lemma find_products_are_records client ids products :
  find_order_details_by_id client ids = Ok products →
  Forall is_product_record products.
Proof.
  intros [_ Hget]%find_order_details_by_id_Ok.
  apply mapM_result_Forall2 in Hget. eapply Forall2_Forall_r; [exact Hget|].
  apply Forall_true. intros id p Hp. by apply get_record in Hp.
Qed.

(** C9.  The lookup of a line's [product_id] in the product map is partial.
    When every [product_id] of the fetched order is the id of a product in
    the batch-get result, the lookups succeed and [_get_order] returns the
    enriched order.  And there is a fetched order that references a
    product absent from the batch-get result, for which [_get_order] raises
    a plain [KeyError] on that id, neither [OrderNotFound] nor
    [ProductNotFound]. *)
Theorem enrichment_lookup_is_partial :
  (∀ (orders : OrdersService) config order_id order ids products_data image_root
     (w : world),
      get_order order_id (orders_db w) = Ok order →
      mapM (λ item, getitem item "product_id") (order_details order) = Ok ids →
      ProductsService.get_products_by_id (products_db w) ids = Ok products_data →
      config !! "PRODUCT_IMAGE_ROOT" = Some image_root →
      Forall (λ item, ∃ product_id product,
                        item !! "product_id" = Some product_id
                        ∧ product ∈ products_data
                        ∧ product !! "id" = Some product_id)
             (order_details order) →
      ∃ details, (_get_order config order_id w).1 = Ok (with_details order details))
  ∧ (∃ (w : @world numbering_orders) order_id order ids products_data product_id,
      get_order order_id (orders_db w) = Ok order
      ∧ mapM (λ item, getitem item "product_id") (order_details order) = Ok ids
      ∧ ProductsService.get_products_by_id (products_db w) ids = Ok products_data
      ∧ product_id ∈ ids
      ∧ (∀ product, product ∈ products_data → product !! "id" ≠ Some product_id)
      ∧ (_get_order example_config order_id w).1
        = Raise (KeyError (KVal product_id))).
Proof.
  split.
  - intros orders config order_id order ids products_data image_root w
      Horder Hids Hfind Hroot Hitems.
    unfold _get_order, mbind, gw_bind, lift, orders_rpc_get_order,
      products_rpc_get_products_by_id.
    rewrite Horder, Hids. cbn [products_db called]. rewrite Hfind.
    destruct (product_map_of_complete products_data ∅) as (m & Hm & _ & _).
    { by eapply find_products_have_id. }
    rewrite Hm, (getitem_Some _ _ _ Hroot).
    destruct (enrichment_total products_data m image_root (order_details order) Hm
                (find_products_are_records _ _ _ Hfind) Hitems)
      as [details ->].
    by exists details.
  - exists (example_world [Order 7 [line "the_odyssey" "99.99" 1; line "ghost" "5.99" 2]]).
    exists 7, (Order 7 [line "the_odyssey" "99.99" 1; line "ghost" "5.99" 2]).
    exists [VStr (text "the_odyssey"); VStr (text "ghost")].
    exists [product_record (text "the_odyssey") (text "The Odyssey") 101 5 10].
    exists (VStr (text "ghost")).
    split_and!; [compute_done .. | | | compute_done].
    + by right; left.
    + intros product ->%list_elem_of_singleton. compute_done.
Qed.

(** C1.  What the code does on a payload that references one unknown
    product among two known ones: the batch get returns the two known
    products, and reading their ['product_id'] (the products carry ['id'])
    raises [KeyError], not [ProductNotFound]; the response is then a
    server error, not a 404 naming the missing id. *)
Theorem create_order_with_a_missing_product_raises_KeyError :
  let order_data : gmap string (list (gmap string scalar)) :=
    {["order_details" := [line "the_odyssey" "99.99" 1;
                          line "no_such_book" "5.99" 2;
                          line "the_enigma" "5.99" 2]]} in
  let run := _create_order plain_dump order_data (example_world []) in
  run.1 = Raise (KeyError (KStr "product_id"))
  ∧ rpc_log run.2
    = [products_get_products_by_id
         [VStr (text "the_odyssey"); VStr (text "no_such_book");
          VStr (text "the_enigma")]]
  ∧ http_status (KeyError (KStr "product_id")) = 500.
Proof. split_and!; compute_done. Qed.

(** C3.  What the code does on a payload whose two lines reference the same
    product: the list sent to the batch get holds that id twice, and the
    order is created. *)
Theorem create_order_queries_a_repeated_id_twice :
  let order_data : gmap string (list (gmap string scalar)) :=
    {["order_details" := [line "the_odyssey" "99.99" 1;
                          line "the_odyssey" "99.99" 3]]} in
  let run := _create_order plain_dump order_data (example_world []) in
  run.1 = Ok (VInt 1)
  ∧ rpc_log run.2
    = [products_get_products_by_id
         [VStr (text "the_odyssey"); VStr (text "the_odyssey")];
       orders_create_order [line "the_odyssey" "99.99" 1;
                            line "the_odyssey" "99.99" 3]].
Proof. split_and!; compute_done. Qed.

(** C5.  Two decrements of 4 on a product with 11 in stock return 7 and
    then 3; a decrement on an id with no record does not fail: it returns
    the negated amount and leaves a record holding only [in_stock]. *)
Theorem decrement_stock_of_a_missing_id_creates_a_record :
  (first ← decrement_stock example_store (VStr (text "LZ129")) 4;
   second ← decrement_stock first.2 (VStr (text "LZ129")) 4;
   Ok (first.1, second.1)) = Ok (7, 3)
  ∧ has_record example_store (VStr (text "ghost")) = false
  ∧ (r ← decrement_stock example_store (VStr (text "ghost")) 4;
     key ← _format_key (VStr (text "ghost"));
     h ← hgetall r.2 key;
     Ok (r.1, h)) = Ok (-4, {["in_stock" := "-4"%string]}).
Proof. split_and!; compute_done. Qed.

(** C6.  What the code does on [GET /orders?page=0&limit=50]: the
    parameters arrive as text, [max(1, '0')] raises [TypeError], and no
    [list_orders] call is issued.  Without parameters the call is issued
    with the defaults, page 1 and limit 10. *)
Theorem get_orders_with_page_and_limit_raises_TypeError
    (orders : OrdersService) (w : world) :
  get_orders {["page" := text "0"; "limit" := text "50"]} w = (Raise TypeError, w)
  ∧ get_orders ∅ w = orders_rpc_list_orders (VInt 1) (VInt 10) w.
Proof. split; reflexivity. Qed.

(** C8 as stated fails: an existing order without lines has all its
    referenced products existing, yet [_get_order] raises [ProductNotFound],
    the batch get of no ids finding nothing. *)
Lemma get_order_without_lines_is_not_enriched :
  ¬ (∀ (orders : OrdersService) config order_id order image_root products
       (w : world),
        get_order order_id (orders_db w) = Ok order →
        config !! "PRODUCT_IMAGE_ROOT" = Some image_root →
        Forall2 (λ item product,
                   ∃ product_id, item !! "product_id" = Some product_id
                                 ∧ get (products_db w) product_id = Ok product
                                 ∧ product !! "id" = Some product_id)
                (order_details order) products →
        (_get_order config order_id w).1
        = Ok (with_details order
                (zip_with (enriched_line image_root) (order_details order) products))).
Proof.
  intros H.
  specialize (H numbering_orders example_config 8 (Order 8 [])
                (text "http://www.example.com/airship/images") []
                (example_world [Order 8 []])).
  assert ((_get_order example_config 8 (example_world [Order 8 []])).1
          = Raise (ProductNotFound (text "No products found for the given IDs.")))
    as E by compute_done.
  rewrite E in H. discriminate H; [compute_done | compute_done | constructor].
Qed.

(** C4 as stated fails: over a store in which a decrement on a missing id
    has left a record holding only the stock, two of the requested ids
    have a matching record, yet the batch get returns no two products and
    raises [KeyError] on [b'id'], not [NotFound]. *)
Lemma batch_get_of_a_broken_record_raises_KeyError :
  ¬ (∀ client orders_id,
       let hits := filter (has_record client) orders_id in
       let k := length hits in
       match find_order_details_by_id client orders_id with
       | Ok products =>
           k ≠ 0%nat ∧ length products = k
           ∧ Forall2 (record_of client) hits products
       | Raise e =>
           e = NotFound (text "No products found for the given IDs.") ∧ k = 0%nat
       end).
Proof.
  intros H.
  specialize (H (<["products:ghost" := {["in_stock" := "-4"%string]}]> example_store)
                [VStr (text "the_odyssey"); VStr (text "ghost")]).
  assert (find_order_details_by_id
            (<["products:ghost" := {["in_stock" := "-4"%string]}]> example_store)
            [VStr (text "the_odyssey"); VStr (text "ghost")]
          = Raise (KeyError (KBytes "id"))) as E by compute_done.
  cbv zeta in H. rewrite E in H. by destruct H as [[=] _].
Qed.

(** C7 as stated fails: a title holding a lone surrogate is a string, yet
    it does not encode, and [create] raises [UnicodeEncodeError]. *)
Lemma create_of_a_title_that_does_not_encode_raises :
  ¬ (∀ client id title cap speed stock,
       ∃ client',
         create client (product_record id title cap speed stock) = Ok client'
         ∧ get client' (VStr id) = Ok (product_record id title cap speed stock)).
Proof.
  intros H.
  destruct (H ∅ (text "LZ127") [0xD800%N] 20 128 3) as (client' & Hcreate & _).
  assert (create ∅ (product_record (text "LZ127") [0xD800%N] 20 128 3)
          = Raise UnicodeEncodeError) as E by compute_done.
  congruence.
Qed.

(** Nor does an integer beyond the digit limit convert: [create] of a
    record whose stock has more than 4300 digits raises [ValueError]. *)
Lemma create_of_a_number_beyond_the_digit_limit_raises
    client id title cap speed stock :
  valid_text id → valid_text title →
  int_fits cap = true → int_fits speed = true →
  10 ^ 4300 ≤ Z.abs stock →
  create client (product_record id title cap speed stock) = Raise ValueError.
Proof.
  intros Hid Htitle Hcap Hspeed Hstock%int_fits_beyond.
  destruct (encode_utf8_valid id Hid) as [bid Eid].
  destruct (encode_utf8_valid title Htitle) as [btitle Etitle].
  destruct (encode_utf8_valid (text "products:" ++ id)) as [k Ek].
  { apply Forall_app; split; [apply valid_text_text | done]. }
  unfold create.
  change (getitem (product_record id title cap speed stock) "id") with (Ok (VStr id)).
  cbn [mbind result_bind].
  change (_format_key (VStr id)) with (Ok (text "products:" ++ id)).
  cbn [mbind result_bind]. unfold hmset. rewrite Ek. cbn [mbind result_bind].
  pose proof (encode_mapping_spec (product_record id title cap speed stock)) as H.
  destruct (encode_mapping _) as [fields|e].
  - destruct H as [Hall _].
    specialize (Hall "in_stock" (VInt stock) eq_refl). cbn in Hall.
    unfold repr_int in Hall. by rewrite Hstock in Hall.
  - destruct H as (f & v & Hf & Hv). cbn [mbind result_bind]. f_equal.
    unfold product_record in Hf.
    repeat (apply lookup_insert_Some in Hf as [[<- <-]|[? Hf]]);
      [| | | | |by rewrite lookup_empty in Hf]; cbn [encode_value] in Hv;
      rewrite ?Eid, ?Etitle in Hv; try done; by apply repr_int_raises in Hv.
Qed.

(** ** The theorems at concrete inputs *)

Lemma no_create_order_when_a_product_is_missing_witness :
  ∃ e w',
    _create_order plain_dump payload_with_unknown (example_world []) = (Raise e, w')
    ∧ orders_db w' = orders_db (example_world [])
    ∧ ∃ calls, rpc_log w' = rpc_log (example_world []) ++ calls
               ∧ ∀ details, orders_create_order details ∉ calls.
Proof.
  apply (no_create_order_when_a_product_is_missing plain_dump payload_with_unknown
           [line "the_odyssey" "99.99" 1; line "no_such_book" "5.99" 2;
            line "the_enigma" "5.99" 2]
           (line "no_such_book" "5.99" 2) (VStr (text "no_such_book"))).
  - compute_done.
  - right. left.
  - compute_done.
  - compute_done.
Defined.

Lemma batch_get_returns_the_hits_witness :
  let orders_id := [VStr (text "the_odyssey"); VStr (text "ghost");
                    VStr (text "the_odyssey"); VStr (text "the_enigma")] in
  let hits := filter (has_record example_store) orders_id in
  let k := length hits in
  match find_order_details_by_id example_store orders_id with
  | Ok products =>
      k ≠ 0%nat ∧ length products = k
      ∧ Forall2 (record_of example_store) hits products
  | Raise e =>
      e = NotFound (text "No products found for the given IDs.") ∧ k = 0%nat
  end.
Proof.
  apply (batch_get_returns_the_hits example_store).
  - compute_done.
  - repeat apply Forall_cons_2; [| done | | |done]; intros _.
    + exists the_odyssey. apply get_record_of. compute_done.
    + exists the_odyssey. apply get_record_of. compute_done.
    + exists the_enigma. apply get_record_of. compute_done.
Defined.

Lemma batch_get_keeps_order_and_multiplicity_witness :
  find_order_details_by_id example_store
    [VStr (text "the_odyssey"); VStr (text "ghost"); VStr (text "the_odyssey")]
  = Ok [the_odyssey; the_odyssey].
Proof.
  apply (batch_get_keeps_order_and_multiplicity example_store).
  - compute_done.
  - compute_done.
Defined.

Lemma create_then_get_round_trip_witness :
  let title := (text "LZ 127 Graf Zeppelin " ++ [0x2116; 0x1F6E9; 0xE9])%N in
  ∃ client',
    create example_store (product_record (text "LZ127") title 20 128 (-3)) = Ok client'
    ∧ get client' (VStr (text "LZ127"))
      = Ok (product_record (text "LZ127") title 20 128 (-3)).
Proof.
  apply (create_then_get_round_trip example_store).
  - compute_done.
  - compute_done.
  - reflexivity.
  - reflexivity.
  - reflexivity.
Defined.

Lemma get_order_enriches_each_line_witness :
  (_get_order example_config 1234 (example_world [order_1234])).1
  = Ok (with_details order_1234
          (zip_with (enriched_line (text "http://www.example.com/airship/images"))
                    (order_details order_1234)
                    [the_odyssey; the_enigma; the_odyssey])).
Proof.
  apply (get_order_enriches_each_line example_config 1234 order_1234).
  - reflexivity.
  - discriminate.
  - reflexivity.
  - repeat (constructor;
            [eexists; split_and!; [reflexivity | compute_done | reflexivity] |]).
    constructor.
Defined.

Lemma enrichment_lookup_is_partial_witness :
  ∃ details,
    (_get_order example_config 1234 (example_world [order_1234])).1
    = Ok (with_details order_1234 details).
Proof.
  apply (proj1 enrichment_lookup_is_partial numbering_orders example_config 1234
           order_1234
           [VStr (text "the_odyssey"); VStr (text "the_enigma"); VStr (text "the_odyssey")]
           [the_odyssey; the_enigma; the_odyssey]
           (text "http://www.example.com/airship/images")).
  - reflexivity.
  - reflexivity.
  - compute_done.
  - reflexivity.
  - repeat constructor.
    + exists (VStr (text "the_odyssey")), the_odyssey.
      split_and!; [reflexivity | left | reflexivity].
    + exists (VStr (text "the_enigma")), the_enigma.
      split_and!; [reflexivity | right; left | reflexivity].
    + exists (VStr (text "the_odyssey")), the_odyssey.
      split_and!; [reflexivity | left | reflexivity].
Defined.

(** * Further properties of the store *)

Lemma decode_utf8_raises_aux n b e :
  (String.length b ≤ n)%nat → decode_utf8 b = Raise e → e = UnicodeDecodeError.
Proof.
  revert b. induction n as [|n IH]; intros b Hn.
  { destruct b; [done | cbn in Hn; lia]. }
  destruct b as [|c0 r0]; [done|]. cbn [decode_utf8].
  assert (∀ r (c : N), (String.length r ≤ n)%nat →
            cons c <$> decode_utf8 r = Raise e → e = UnicodeDecodeError) as Hrec.
  { intros r c Hr. destruct (decode_utf8 r) as [s|e'] eqn:Hd; [done|].
    intros [= <-]. by eapply IH. }
  cbn in Hn.
  repeat case_match; try (by intros [= <-]); subst; cbn in Hn;
    apply Hrec; lia.
Qed.

Lemma decode_utf8_raises b e : decode_utf8 b = Raise e → e = UnicodeDecodeError.
Proof. by apply (decode_utf8_raises_aux (String.length b)). Qed.

Lemma py_int_raises b e : py_int b = Raise e → e = ValueError.
Proof.
  unfold py_int, int_literal. repeat case_match; cbn; by intros [= <-].
Qed.

(** What [_from_hash] can raise: a missing field, undecodable text, or a
    number that does not parse. *)
Lemma from_hash_raises h e :
  _from_hash h = Raise e →
  (∃ name, e = KeyError (KBytes name)) ∨ e = UnicodeDecodeError ∨ e = ValueError.
Proof.
  unfold _from_hash, field.
  repeat match goal with
  | |- context [h !! ?k] => destruct (h !! k) eqn:?
  | |- context [decode_utf8 ?b] =>
      let H := fresh in destruct (decode_utf8 b) eqn:H;
      [| apply decode_utf8_raises in H; subst]
  | |- context [py_int ?b] =>
      let H := fresh in destruct (py_int b) eqn:H;
      [| apply py_int_raises in H; subst]
  | _ => progress cbn [mbind result_bind]
  end; intros [= <-]; eauto.
Qed.



Lemma get_of_no_record client product_id :
  sendable product_id →
  has_record client product_id = false →
  get client product_id
  = Raise (NotFound (text "Product ID " ++ py_str product_id
                     ++ text " does not exist")).
Proof.
  intros (key & h & Hkey & Hh)%(sendable_hgetall client).
  rewrite (has_record_unfold _ _ _ _ Hkey Hh), (get_unfold _ _ _ _ Hkey Hh).
  intros Hrec%bool_decide_eq_false.
  rewrite decide_True; [done|]. by destruct (decide (h = ∅)).
Qed.

(** X1.  For an id the client can send, [get] raises [NotFound] with the message
    [Product ID <id> does not exist] exactly when the store holds no record
    under the id's key. *)
Theorem get_raises_NotFound_iff_no_record client product_id :
  sendable product_id →
  get client product_id
  = Raise (NotFound (text "Product ID " ++ py_str product_id
                     ++ text " does not exist"))
  ↔ has_record client product_id = false.
Proof.
  intros Hid. split; [|by apply get_of_no_record].
  destruct (sendable_hgetall client _ Hid) as (key & h & Hkey & Hh).
  rewrite (has_record_unfold _ _ _ _ Hkey Hh), (get_unfold _ _ _ _ Hkey Hh).
  case_decide as Hempty.
  - by rewrite bool_decide_eq_false_2 by tauto.
  - intros [(? & [=]) | [[=] | [=]]]%from_hash_raises.
Qed.

Lemma encode_utf8_inj s t b : encode_utf8 s = Ok b → encode_utf8 t = Ok b → s = t.
Proof.
  intros Hs%encode_decode_utf8 Ht%encode_decode_utf8. congruence.
Qed.

(** Two ids that format to the same key print the same. *)
Lemma format_key_inj id id' key :
  _format_key id = Ok key → _format_key id' = Ok key → py_str id = py_str id'.
Proof.
  intros [_ ->]%format_key_Ok [_ H]%format_key_Ok. by apply app_inv_head in H.
Qed.

Lemma hgetall_Ok client key h :
  hgetall client key = Ok h →
  ∃ k, encode_utf8 key = Ok k ∧ h = default ∅ (client !! k).
Proof.
  unfold hgetall. destruct (encode_utf8 key) as [k|]; [|done].
  cbn [mbind result_bind]. intros [= <-]. by exists k.
Qed.

(** A record under another key is read the same before and after a write
    to [k]. *)
Lemma hgetall_other_key (client : gmap string (gmap string string)) k h id key id' key' :
  _format_key id = Ok key → encode_utf8 key = Ok k →
  _format_key id' = Ok key' →
  py_str id' ≠ py_str id →
  hgetall (<[k := h]> client) key' = hgetall client key'
  ∧ hgetall (base.delete k client) key' = hgetall client key'.
Proof.
  intros Hkey Hk Hkey' Hne. unfold hgetall.
  destruct (encode_utf8 key') as [k'|] eqn:Hk'; [|done].
  cbn [mbind result_bind].
  assert (k ≠ k') as Hkk.
  { intros <-. apply Hne. pose proof (encode_utf8_inj _ _ _ Hk Hk') as <-.
    by eapply format_key_inj. }
  by rewrite lookup_insert_ne, lookup_delete_ne.
Qed.

Lemma get_other_key (client : gmap string (gmap string string)) k h id key id' :
  _format_key id = Ok key → encode_utf8 key = Ok k →
  py_str id' ≠ py_str id →
  get (<[k := h]> client) id' = get client id'.
Proof.
  intros Hkey Hk Hne. unfold get.
  destruct (_format_key id') as [key'|] eqn:Hkey'; [|done]. cbn [mbind result_bind].
  by rewrite (proj1 (hgetall_other_key client k h _ _ _ _ Hkey Hk Hkey' Hne)).
Qed.

Lemma get_other_key_delete (client : gmap string (gmap string string)) k id key id' :
  _format_key id = Ok key → encode_utf8 key = Ok k →
  py_str id' ≠ py_str id →
  get (base.delete k client) id' = get client id'.
Proof.
  intros Hkey Hk Hne. unfold get.
  destruct (_format_key id') as [key'|] eqn:Hkey'; [|done]. cbn [mbind result_bind].
  by rewrite (proj2 (hgetall_other_key client k ∅ _ _ _ _ Hkey Hk Hkey' Hne)).
Qed.

(** Where [create] leaves a well-typed record. *)
Lemma create_product_record client id title cap speed stock k bid btitle :
  encode_utf8 (text "products:" ++ id) = Ok k →
  encode_utf8 id = Ok bid →
  encode_utf8 title = Ok btitle →
  int_fits cap = true → int_fits speed = true → int_fits stock = true →
  create client (product_record id title cap speed stock)
  = Ok (<[k := product_hash bid btitle (decimal cap) (decimal speed) (decimal stock)
              ∪ default ∅ (client !! k)]> client).
Proof.
  intros Ek Eid Etitle Hcap Hspeed Hstock. unfold create.
  change (getitem (product_record id title cap speed stock) "id") with (Ok (VStr id)).
  cbn [mbind result_bind].
  change (_format_key (VStr id)) with (Ok (text "products:" ++ id)).
  cbn [mbind result_bind].
  rewrite (hmset_Ok _ _ _ _ Ek) by by eapply product_record_encodes.
  do 3 f_equal. apply map_eq. intros name.
  rewrite lookup_omap. unfold product_record, product_hash.
  repeat match goal with
  | |- context [<[?f := _]> _ !! name] =>
      destruct (decide (f = name)) as [<-|];
      [rewrite !lookup_insert_eq; unfold encoded, repr_int;
       cbn [mbind option_bind encode_value]; unfold repr_int;
       by rewrite ?Eid, ?Etitle, ?Hcap, ?Hspeed, ?Hstock
      |rewrite !(lookup_insert_ne _ f name) by done]
  end.
  by rewrite !lookup_empty.
Qed.

(** What [create] of a well-typed record needs in order to succeed. *)
Lemma create_product_record_inv client id title cap speed stock client' :
  create client (product_record id title cap speed stock) = Ok client' →
  ∃ k bid btitle,
    encode_utf8 (text "products:" ++ id) = Ok k
    ∧ encode_utf8 id = Ok bid ∧ encode_utf8 title = Ok btitle
    ∧ int_fits cap = true ∧ int_fits speed = true ∧ int_fits stock = true.
Proof.
  unfold create.
  change (getitem (product_record id title cap speed stock) "id") with (Ok (VStr id)).
  cbn [mbind result_bind].
  change (_format_key (VStr id)) with (Ok (text "products:" ++ id)).
  cbn [mbind result_bind]. intros (k & Hk & Hall & _)%hmset_inv.
  pose proof (Hall "id" (VStr id) eq_refl) as H1.
  pose proof (Hall "title" (VStr title) eq_refl) as H2.
  pose proof (Hall "passenger_capacity" (VInt cap) eq_refl) as H3.
  pose proof (Hall "maximum_speed" (VInt speed) eq_refl) as H4.
  pose proof (Hall "in_stock" (VInt stock) eq_refl) as H5.
  cbn in H1, H2, H3, H4, H5. unfold repr_int in H3, H4, H5.
  destruct (encode_utf8 id) as [bid|]; [|done].
  destruct (encode_utf8 title) as [btitle|]; [|done].
  destruct (int_fits cap); [|done]. destruct (int_fits speed); [|done].
  destruct (int_fits stock); [|done]. by exists k, bid, btitle.
Qed.

Lemma from_hash_product_hash bid btitle id title cap speed stock old :
  encode_utf8 id = Ok bid → encode_utf8 title = Ok btitle →
  int_fits cap = true → int_fits speed = true → int_fits stock = true →
  _from_hash (product_hash bid btitle (decimal cap) (decimal speed) (decimal stock) ∪ old)
  = Ok (product_record id title cap speed stock).
Proof.
  intros Eid Etitle Hcap Hspeed Hstock.
  apply from_hash_fields with (bid := bid) (btitle := btitle); try done;
    by apply lookup_union_Some_l.
Qed.

(** X2.  [create] is idempotent: writing again a product that was just written
    succeeds and leaves the store as the first write left it. *)
Theorem create_twice_is_create_once client product client' :
  create client product = Ok client' →
  create client' product = Ok client'.
Proof.
  unfold create. destruct (getitem product "id") as [id|]; [|done].
  cbn [mbind result_bind].
  destruct (_format_key id) as [key|]; [|done]. cbn [mbind result_bind].
  intros (k & Hk & Hall & ->)%hmset_inv.
  rewrite (hmset_Ok _ _ _ _ Hk Hall), lookup_insert_eq.
  change (default ∅ (Some ?h)) with h.
  by rewrite insert_insert_eq, (assoc_L (∪)), (idemp_L (∪)).
Qed.

(** X3.  [create] writes under the key of the product's id only: an id that
    prints differently reads the same before and after, and has a record
    after exactly when it had one before. *)
Theorem create_leaves_other_products client product client' product_id other :
  create client product = Ok client' →
  product !! "id" = Some product_id →
  py_str other ≠ py_str product_id →
  get client' other = get client other
  ∧ has_record client' other = has_record client other.
Proof.
  unfold create. intros Hc Hid Hne. rewrite (getitem_Some _ _ _ Hid) in Hc.
  cbn [mbind result_bind] in Hc.
  destruct (_format_key product_id) as [key|] eqn:Hkey; [|done].
  cbn [mbind result_bind] in Hc. apply hmset_inv in Hc as (k & Hk & _ & ->).
  split; [by eapply get_other_key|].
  unfold has_record.
  destruct (_format_key other) as [key'|] eqn:Hkey'; [|done]. cbn [mbind result_bind].
  by rewrite (proj1 (hgetall_other_key client k _ _ _ _ _ Hkey Hk Hkey' Hne)).
Qed.

(** X4.  [delete] of a product that [get] returns succeeds with the count 1; a
    following [get] of the id raises [NotFound], and every id that prints
    differently reads as before. *)
Theorem delete_removes_the_record client product_id product :
  get client product_id = Ok product →
  ∃ client',
    delete client product_id = Ok (1, client')
    ∧ get client' product_id
      = Raise (NotFound (text "Product ID " ++ py_str product_id
                         ++ text " does not exist"))
    ∧ ∀ other, py_str other ≠ py_str product_id →
               get client' other = get client other.
Proof.
  intros (key & h & Hkey & Hh & Hne & _)%get_record_of.
  destruct (hgetall_Ok _ _ _ Hh) as (k & Hk & ->).
  destruct (client !! k) as [h|] eqn:Hkh; [|done].
  exists (base.delete k client). split_and!.
  - unfold delete, del. rewrite Hkey. cbn [mbind result_bind].
    rewrite Hk. cbn [mbind result_bind]. rewrite Hkh. cbn [mbind result_bind].
    by rewrite decide_False.
  - rewrite (get_unfold _ _ key ∅ Hkey); [by rewrite decide_True|].
    unfold hgetall. rewrite Hk. cbn [mbind result_bind].
    by rewrite lookup_delete_eq.
  - intros other Hother. by eapply get_other_key_delete.
Qed.

Lemma decodable_no_empty client k h : decodable client → client !! k = Some h → h ≠ ∅.
Proof. intros Hc Hk ->. by specialize (Hc _ _ Hk). Qed.

(** X5.  Over a store whose records all decode, and for an id the client can
    send, [delete] raises [NotFound] with the message
    [Product ID <id> does not exist] exactly when the store holds no record
    under the id's key. *)
Theorem delete_raises_NotFound_iff_no_record client product_id :
  decodable client →
  sendable product_id →
  delete client product_id
  = Raise (NotFound (text "Product ID " ++ py_str product_id
                     ++ text " does not exist"))
  ↔ has_record client product_id = false.
Proof.
  intros Hc Hid. unfold delete, del, has_record, hgetall.
  rewrite (sendable_format_key _ Hid). cbn [mbind result_bind].
  destruct (sendable_key _ Hid) as [k ->].
  rewrite (format_str_is_ok _ (proj1 Hid)).
  cbn [mbind result_bind]. destruct (client !! k) as [h|] eqn:Hk; cbn.
  - rewrite bool_decide_eq_true_2 by (by eapply decodable_no_empty). done.
  - done.
Qed.

Lemma redis_ll_decimal z : in_int64 z = true → redis_ll (decimal z) = Ok z.
Proof.
  intros Hz. unfold redis_ll. by rewrite int_literal_decimal, String.eqb_refl, Hz.
Qed.

Lemma redis_ll_Ok b z :
  redis_ll b = Ok z → py_int b = Ok z ∧ b = decimal z ∧ in_int64 z = true.
Proof.
  unfold redis_ll. destruct (int_literal b) as [z'|]; [|done].
  destruct (String.eqb_spec (decimal z') b) as [<-|]; [|done].
  destruct (in_int64 z') eqn:Hz; [|done]. intros [= <-].
  split_and!; [|done..]. by apply py_int_decimal, in_int64_fits.
Qed.

Ltac map_cases name :=
  repeat match goal with
  | |- context [<[?f := _]> _ !! name] =>
      destruct (decide (f = name)) as [<-|];
      [rewrite !lookup_insert_eq | rewrite !(lookup_insert_ne _ f name) by done]
  end.

(** Rewriting the stock of a record that decodes gives a record that
    decodes to the same product with the new stock. *)
Lemma from_hash_set_stock h p n :
  _from_hash h = Ok p →
  int_fits n = true →
  _from_hash (<["in_stock" := decimal n]> h) = Ok (<["in_stock" := VInt n]> p).
Proof.
  intros Hp Hn. revert Hp.
  unfold _from_hash, field.
  rewrite (lookup_insert_ne _ "in_stock" "id"), (lookup_insert_ne _ "in_stock" "title"),
    (lookup_insert_ne _ "in_stock" "passenger_capacity"),
    (lookup_insert_ne _ "in_stock" "maximum_speed"), lookup_insert_eq by done.
  destruct (h !! "id") as [b1|]; [|done]. cbn [mbind result_bind].
  destruct (decode_utf8 b1) as [id|]; [|done]. cbn [mbind result_bind].
  destruct (h !! "title") as [b2|]; [|done]. cbn [mbind result_bind].
  destruct (decode_utf8 b2) as [title|]; [|done]. cbn [mbind result_bind].
  destruct (h !! "passenger_capacity") as [b3|]; [|done]. cbn [mbind result_bind].
  destruct (py_int b3) as [cap|]; [|done]. cbn [mbind result_bind].
  destruct (h !! "maximum_speed") as [b4|]; [|done]. cbn [mbind result_bind].
  destruct (py_int b4) as [speed|]; [|done]. cbn [mbind result_bind].
  destruct (h !! "in_stock") as [b5|]; [|done]. cbn [mbind result_bind].
  destruct (py_int b5) as [stock|]; [|done]. cbn [mbind result_bind].
  rewrite (py_int_decimal _ Hn). intros [= <-]. f_equal.
  all: apply map_eq; intros name; map_cases name; done.
Qed.

(** What a hash that decodes holds. *)
Lemma from_hash_Ok h p :
  _from_hash h = Ok p →
  ∃ b1 b2 b3 b4 b5 id title cap speed stock,
    h !! "id" = Some b1 ∧ decode_utf8 b1 = Ok id
    ∧ h !! "title" = Some b2 ∧ decode_utf8 b2 = Ok title
    ∧ h !! "passenger_capacity" = Some b3 ∧ py_int b3 = Ok cap
    ∧ h !! "maximum_speed" = Some b4 ∧ py_int b4 = Ok speed
    ∧ h !! "in_stock" = Some b5 ∧ py_int b5 = Ok stock
    ∧ p = product_record id title cap speed stock.
Proof.
  unfold _from_hash, field.
  destruct (h !! "id") as [b1|]; [|done]. cbn [mbind result_bind].
  destruct (decode_utf8 b1) as [id|] eqn:H1; [|done]. cbn [mbind result_bind].
  destruct (h !! "title") as [b2|]; [|done]. cbn [mbind result_bind].
  destruct (decode_utf8 b2) as [title|] eqn:H2; [|done]. cbn [mbind result_bind].
  destruct (h !! "passenger_capacity") as [b3|]; [|done]. cbn [mbind result_bind].
  destruct (py_int b3) as [cap|] eqn:H3; [|done]. cbn [mbind result_bind].
  destruct (h !! "maximum_speed") as [b4|]; [|done]. cbn [mbind result_bind].
  destruct (py_int b4) as [speed|] eqn:H4; [|done]. cbn [mbind result_bind].
  destruct (h !! "in_stock") as [b5|]; [|done]. cbn [mbind result_bind].
  destruct (py_int b5) as [stock|] eqn:H5; [|done]. cbn [mbind result_bind].
  intros [= <-]. by exists b1, b2, b3, b4, b5, id, title, cap, speed, stock.
Qed.

Lemma from_hash_in_stock h p b :
  _from_hash h = Ok p → h !! "in_stock" = Some b →
  ∃ stock, py_int b = Ok stock ∧ p !! "in_stock" = Some (VInt stock).
Proof.
  intros (b1 & b2 & b3 & b4 & b5 & id & title & cap & speed & stock
          & _ & _ & _ & _ & _ & _ & _ & _ & H5 & Hs & ->)%from_hash_Ok Hb.
  rewrite Hb in H5. injection H5 as <-. by exists stock.
Qed.

Lemma from_hash_has_stock h p : _from_hash h = Ok p → is_Some (h !! "in_stock").
Proof.
  intros (b1 & b2 & b3 & b4 & b5 & id & title & cap & speed & stock
          & _ & _ & _ & _ & _ & _ & _ & _ & H5 & _)%from_hash_Ok.
  by eexists.
Qed.

(** What a successful decrement does to the store. *)
Lemma decrement_stock_Ok client product_id amount n client' product :
  get client product_id = Ok product →
  decrement_stock client product_id amount = Ok (n, client') →
  ∃ key k h, _format_key product_id = Ok key ∧ encode_utf8 key = Ok k
             ∧ client !! k = Some h ∧ _from_hash h = Ok product
             ∧ client' = <[k := <["in_stock" := decimal n]> h]> client
             ∧ product !! "in_stock" = Some (VInt (n + amount))
             ∧ in_int64 n = true.
Proof.
  intros (key & h0 & Hkey & Hh & Hne & Hp%from_hash_decodes)%get_record_of.
  destruct (hgetall_Ok _ _ _ Hh) as (k & Hk & ->).
  destruct (client !! k) as [h|] eqn:Hkh; [|done].
  change (default ∅ (Some h)) with h in *.
  unfold decrement_stock, hincrby. rewrite Hkey. cbn [mbind result_bind].
  rewrite Hk.
  change (encode_utf8 (text "in_stock")) with (@Ok string "in_stock").
  cbn [mbind result_bind].
  destruct (repr_int (- amount)); [|done]. cbn [mbind result_bind].
  rewrite Hkh. change (default ∅ (Some h)) with h.
  destruct (from_hash_has_stock _ _ Hp) as [b Hb]. rewrite Hb.
  destruct (redis_ll b) as [old|] eqn:Hold; [|done]. cbn [mbind result_bind].
  destruct (in_int64 (- amount) && in_int64 (old + - amount)) eqn:Hin; [|done].
  intros [= <- <-]. exists key, k, h. split_and!; [done..| |].
  - apply redis_ll_Ok in Hold as (Hold & _ & _).
    destruct (from_hash_in_stock _ _ _ Hp Hb) as (stock & Hs & ->).
    do 2 f_equal. rewrite Hold in Hs. injection Hs as <-. lia.
  - by apply andb_true_iff in Hin as [_ ?].
Qed.

(** X6.  A successful [decrement_stock] of a product that [get] returns gives the
    new stock [n], which is the old stock less the amount; a following
    [get] returns the same product with [in_stock] set to [n], and every id
    that prints differently reads as before. *)
Theorem decrement_stock_changes_only_the_stock
    client product_id amount n client' product :
  get client product_id = Ok product →
  decrement_stock client product_id amount = Ok (n, client') →
  product !! "in_stock" = Some (VInt (n + amount))
  ∧ get client' product_id = Ok (<["in_stock" := VInt n]> product)
  ∧ ∀ other, py_str other ≠ py_str product_id →
             get client' other = get client other.
Proof.
  intros Hp Hd.
  destruct (decrement_stock_Ok _ _ _ _ _ _ Hp Hd)
    as (key & k & h & Hkey & Hk & Hh & Hfrom & -> & Hstock & Hn).
  split_and!; [done | |].
  - rewrite (get_unfold _ _ _ _ Hkey (hgetall_insert _ _ _ _ Hk)).
    rewrite decide_False.
    + by apply from_hash_set_stock, in_int64_fits.
    + intros He. apply (f_equal (.!! "in_stock")) in He.
      by rewrite lookup_insert_eq in He.
  - intros other Hne. by eapply get_other_key.
Qed.

(** X7.  [create], [decrement_stock] and [get] compose.  For a well-typed record
    whose text encodes, whose [passenger_capacity] and [maximum_speed] are
    within the digit limit of the conversion to a string, and whose stock,
    the negated amount and their difference fit the 64-bit integers of
    Redis, creating the record and decrementing its stock by [amount]
    returns the stock lowered by [amount], and reading the product back
    returns the record with that stock. *)
Theorem decrement_stock_after_create client id title cap speed stock amount :
  valid_text id → valid_text title →
  int_fits cap = true → int_fits speed = true →
  in_int64 stock = true → in_int64 (- amount) = true →
  in_int64 (stock - amount) = true →
  ∃ client1 client2,
    create client (product_record id title cap speed stock) = Ok client1
    ∧ decrement_stock client1 (VStr id) amount = Ok (stock - amount, client2)
    ∧ get client2 (VStr id)
      = Ok (product_record id title cap speed (stock - amount)).
Proof.
  intros Hid Htitle Hcap Hspeed Hs Ha Hn.
  destruct (encode_utf8_valid id Hid) as [bid Eid].
  destruct (encode_utf8_valid title Htitle) as [btitle Etitle].
  destruct (encode_utf8_valid (text "products:" ++ id)) as [k Ek].
  { apply Forall_app; split; [apply valid_text_text | done]. }
  pose proof (in_int64_fits _ Hs) as Hstock.
  eexists _, _. split; [by eapply create_product_record|].
  set (h := product_hash _ _ _ _ _ ∪ _).
  assert (_from_hash h = Ok (product_record id title cap speed stock)) as Hfrom
    by by apply from_hash_product_hash.
  assert (h !! "in_stock" = Some (decimal stock)) as Hh
    by by apply lookup_union_Some_l.
  split.
  - unfold decrement_stock, hincrby.
    change (_format_key (VStr id)) with (Ok (text "products:" ++ id)).
    cbn [mbind result_bind]. rewrite Ek.
    change (encode_utf8 (text "in_stock")) with (@Ok string "in_stock").
    cbn [mbind result_bind]. unfold repr_int. rewrite (in_int64_fits _ Ha).
    cbn [mbind result_bind]. rewrite lookup_insert_eq.
    change (default ∅ (Some ?x)) with x. rewrite Hh, (redis_ll_decimal _ Hs).
    cbn [mbind result_bind]. replace (stock + - amount) with (stock - amount) by lia.
    rewrite Ha, Hn. reflexivity.
  - rewrite (get_unfold _ (VStr id) _ _ eq_refl (hgetall_insert _ _ _ _ Ek)).
    rewrite decide_False.
    2:{ intros He. apply (f_equal (.!! "in_stock")) in He.
        by rewrite lookup_insert_eq in He. }
    fold h. rewrite (from_hash_set_stock _ _ _ Hfrom (in_int64_fits _ Hn)). f_equal.
    all: apply map_eq; intros name; unfold product_record; map_cases name; done.
Qed.

(** X8.  The batch get of a single id agrees with [get]: it returns products
    exactly when [get] of the id returns a product, and then it returns
    just that product. *)
Theorem batch_get_of_one_id_is_get client product_id products :
  find_order_details_by_id client [product_id] = Ok products
  ↔ ∃ product, products = [product] ∧ get client product_id = Ok product.
Proof.
  split.
  - intros [Hne Hget]%find_order_details_by_id_Ok. cbn [filter list_filter] in Hget.
    case_decide as Hrec; cbn [mapM] in Hget.
    + destruct (get client product_id) as [p|]; [|done]. injection Hget as <-. eauto.
    + by injection Hget as <-.
  - intros (p & -> & Hp). apply find_order_details_by_id_all_hits; [|done].
    by repeat constructor.
Qed.

(** X9.  The batch get distributes over concatenation: when the batch gets of two
    lists of ids both return, the batch get of the concatenated list
    returns the concatenation of the two results. *)
Theorem batch_get_of_a_concatenation client ids1 ids2 products1 products2 :
  find_order_details_by_id client ids1 = Ok products1 →
  find_order_details_by_id client ids2 = Ok products2 →
  find_order_details_by_id client (ids1 ++ ids2) = Ok (products1 ++ products2).
Proof.
  unfold find_order_details_by_id.
  destruct (mapM _format_key ids1) as [ks1|] eqn:K1; [|done].
  destruct (mapM _format_key ids2) as [ks2|] eqn:K2; [|done].
  cbn [mbind result_bind].
  destruct (mapM (hgetall client) ks1) as [rs1|] eqn:H1; [|done].
  destruct (mapM (hgetall client) ks2) as [rs2|] eqn:H2; [|done].
  cbn [mbind result_bind].
  destruct (decode_results rs1) as [ps1|] eqn:D1; [|done].
  destruct (decode_results rs2) as [ps2|] eqn:D2; [|done].
  cbn [mbind result_bind]. intros E1 E2.
  assert (mapM _format_key (ids1 ++ ids2) = Ok (ks1 ++ ks2)) as ->.
  { apply mapM_result_Forall2. apply Forall2_app; by apply mapM_result_Forall2. }
  cbn [mbind result_bind].
  assert (mapM (hgetall client) (ks1 ++ ks2) = Ok (rs1 ++ rs2)) as ->.
  { apply mapM_result_Forall2. apply Forall2_app; by apply mapM_result_Forall2. }
  cbn [mbind result_bind].
  assert (decode_results (rs1 ++ rs2) = Ok (ps1 ++ ps2)) as ->.
  { clear -D1 D2. revert ps1 D1. induction rs1 as [|r rs1 IH]; intros ps1; cbn.
    - by intros [= <-].
    - case_decide; [by apply IH|].
      destruct (_from_hash r); [|done]. cbn [mbind result_bind].
      destruct (decode_results rs1); [|done]. cbn [mbind result_bind].
      intros [= <-]. by rewrite (IH _ eq_refl). }
  cbn [mbind result_bind].
  destruct ps1; [done|]. destruct ps2; [done|].
  by injection E1 as <-; injection E2 as <-.
Qed.

Lemma has_record_get client product_id :
  decodable client → has_record client product_id = true →
  ∃ product, get client product_id = Ok product.
Proof.
  intros Hc Hrec. unfold has_record in Hrec.
  destruct (_format_key product_id) as [key|] eqn:Hkey; [|done].
  cbn [mbind result_bind] in Hrec.
  destruct (hgetall client key) as [h0|] eqn:Hh; [|done].
  apply bool_decide_eq_true in Hrec.
  rewrite (get_unfold _ _ _ _ Hkey Hh), decide_False by done.
  destruct (hgetall_Ok _ _ _ Hh) as (k & Hk & ->).
  destruct (client !! k) as [h|] eqn:Hkh; [|done].
  change (default ∅ (Some h)) with h. specialize (Hc _ _ Hkh). cbn beta in Hc.
  destruct (_from_hash h) as [p|]; [by eexists | done].
Qed.

(** X10.  The batch get skips missing records only, never a broken one: when some
    requested id has a record on which [get] raises (a field is missing or
    does not decode), the batch get of ids the client can send raises too. *)
Theorem batch_get_never_skips_a_broken_record client orders_id product_id e :
  Forall sendable orders_id →
  product_id ∈ orders_id →
  has_record client product_id = true →
  get client product_id = Raise e →
  ∃ e', find_order_details_by_id client orders_id = Raise e'.
Proof.
  intros Hids Hin Hrec Hget. rewrite find_order_details_by_id_hits by done.
  destruct (mapM (get client) (filter (has_record client) orders_id)) as [ps|e'] eqn:Hps.
  - apply mapM_result_Forall2 in Hps.
    assert (product_id ∈ filter (has_record client) orders_id) as Hin'.
    { apply list_elem_of_filter. split; [by rewrite Hrec | done]. }
    apply list_elem_of_lookup_1 in Hin' as [i Hi].
    destruct (Forall2_lookup_l _ _ _ _ _ Hps Hi) as (p & _ & Hp). congruence.
  - by eexists.
Qed.

(** X11.  Over a store whose records all decode, reads fail with [NotFound] only.
    For an id the client can send, [get] returns a full product record when
    the id has a record and raises [NotFound] otherwise; for ids the client
    can send, the batch get returns full product records or raises
    [NotFound] with [No products found for the given IDs.]. *)
Theorem reads_of_a_decodable_store client :
  decodable client →
  (∀ product_id, sendable product_id →
     if has_record client product_id
     then ∃ product, get client product_id = Ok product ∧ is_product_record product
     else get client product_id
          = Raise (NotFound (text "Product ID " ++ py_str product_id
                             ++ text " does not exist")))
  ∧ (∀ orders_id, Forall sendable orders_id →
       (∃ products, find_order_details_by_id client orders_id = Ok products
                    ∧ Forall is_product_record products)
       ∨ find_order_details_by_id client orders_id
         = Raise (NotFound (text "No products found for the given IDs."))).
Proof.
  intros Hc.
  assert (∀ product_id, sendable product_id → has_record client product_id = true →
            ∃ product, get client product_id = Ok product ∧ is_product_record product)
    as Hget.
  { intros id Hid Hrec. destruct (has_record_get _ _ Hc Hrec) as [p Hp].
    exists p. split; [done|]. by apply get_record in Hp. }
  split.
  - intros id Hid. destruct (has_record client id) eqn:Hrec; [by apply Hget|].
    by apply get_of_no_record.
  - intros ids Hids. rewrite find_order_details_by_id_hits by done.
    destruct (mapM_result_is_ok (get client) (filter (has_record client) ids))
      as [ps Hps].
    { apply Forall_forall. intros id [Hrec Hin]%list_elem_of_filter.
      rewrite Forall_forall in Hids.
      destruct (Hget id (Hids _ Hin)) as (p & -> & _); [|done].
      by destruct (has_record client id). }
    rewrite Hps. destruct ps as [|p ps]; [by right|]. left. eexists. split; [done|].
    apply mapM_result_Forall2 in Hps. eapply Forall2_Forall_r; [exact Hps|].
    apply Forall_true. intros id q Hq. by apply get_record in Hq.
Qed.



(** X12.  The writes keep the store decodable: over a store whose records all
    decode, [create] of a well-typed record, [delete], and
    [decrement_stock] of an id that has a record each leave, when they
    succeed, a store whose records all decode. *)
Theorem store_stays_decodable client :
  decodable client →
  (∀ id title cap speed stock client',
     create client (product_record id title cap speed stock) = Ok client' →
     decodable client')
  ∧ (∀ product_id n client',
       delete client product_id = Ok (n, client') → decodable client')
  ∧ (∀ product_id amount n client',
       has_record client product_id = true →
       decrement_stock client product_id amount = Ok (n, client') →
       decodable client').
Proof.
  intros Hc. split_and!.
  - intros id title cap speed stock client' Hcreate.
    destruct (create_product_record_inv _ _ _ _ _ _ _ Hcreate)
      as (k & bid & btitle & Ek & Eid & Etitle & Hcap & Hspeed & Hstock).
    rewrite (create_product_record _ _ _ _ _ _ _ _ _ Ek Eid Etitle Hcap Hspeed Hstock)
      in Hcreate.
    injection Hcreate as <-. apply map_Forall_insert_2; [|done].
    by rewrite (from_hash_product_hash _ _ _ _ _ _ _ _ Eid Etitle Hcap Hspeed Hstock).
  - intros id n client'. unfold delete, del.
    destruct (_format_key id) as [key|]; [|done]. cbn [mbind result_bind].
    destruct (encode_utf8 key) as [k|]; [|done].
    cbn [mbind result_bind]. destruct (client !! k); cbn; [|by destruct (format_str id)].
    intros [= <- <-]. by apply map_Forall_delete.
  - intros id amount n client' Hrec Hdec.
    destruct (has_record_get _ _ Hc Hrec) as [p Hp].
    destruct (decrement_stock_Ok _ _ _ _ _ _ Hp Hdec)
      as (key & k & h & Hkey & Hk & Hh & Hfrom & -> & _ & Hn).
    apply map_Forall_insert_2; [|done].
    by rewrite (from_hash_set_stock _ _ _ Hfrom (in_int64_fits _ Hn)).
Qed.

(** X13.  [decrement_stock] of an id without a record breaks that invariant: when
    it succeeds it returns the negated amount and leaves under the id a
    record on which [get] raises [KeyError] on [b'id'], so that the store
    is no longer decodable. *)
Theorem decrement_stock_of_a_missing_id_breaks_the_store
    client product_id amount n client' :
  has_record client product_id = false →
  decrement_stock client product_id amount = Ok (n, client') →
  n = - amount
  ∧ has_record client' product_id = true
  ∧ get client' product_id = Raise (KeyError (KBytes "id"))
  ∧ ¬ decodable client'.
Proof.
  intros Hrec Hdec. unfold decrement_stock in Hdec.
  destruct (_format_key product_id) as [key|] eqn:Hkey; [|done].
  cbn [mbind result_bind] in Hdec. unfold hincrby in Hdec.
  destruct (encode_utf8 key) as [k|] eqn:Hk; [|done].
  assert (hgetall client key = Ok (default ∅ (client !! k))) as Hh.
  { unfold hgetall. by rewrite Hk. }
  rewrite (has_record_unfold _ _ _ _ Hkey Hh) in Hrec.
  apply bool_decide_eq_false in Hrec.
  assert (default ∅ (client !! k) = ∅) as Hempty
    by (by destruct (decide (default ∅ (client !! k) = ∅))).
  cbn [mbind result_bind] in Hdec.
  change (encode_utf8 (text "in_stock")) with (Ok "in_stock"%string : result bytes)
    in Hdec.
  cbn [mbind result_bind] in Hdec.
  destruct (repr_int (- amount)); [|done]. cbn [mbind result_bind] in Hdec.
  rewrite Hempty, lookup_empty in Hdec. cbn [mbind result_bind] in Hdec.
  destruct (in_int64 (- amount) && in_int64 (0 + - amount)); [|done].
  injection Hdec as <- <-. split; [lia|].
  assert (<["in_stock" := decimal (0 + - amount)]> (∅ : gmap string string) ≠ ∅) as Hne.
  { intros H. apply (f_equal (.!! "in_stock")) in H.
    by rewrite lookup_insert_eq, lookup_empty in H. }
  split_and!.
  - rewrite (has_record_unfold _ _ _ _ Hkey (hgetall_insert _ _ _ _ Hk)).
    by rewrite bool_decide_eq_true_2.
  - rewrite (get_unfold _ _ _ _ Hkey (hgetall_insert _ _ _ _ Hk)).
    by rewrite decide_False.
  - intros Hc. specialize (Hc k _ (lookup_insert_eq _ _ _)). done.
Qed.

(** * Further properties of the gateway *)

Lemma getitem_Ok {V} (d : gmap string V) k v : getitem d k = Ok v → d !! k = Some v.
Proof. unfold getitem. destruct (d !! k); [by intros [= ->] | done]. Qed.

Lemma getitem_raises {V} (d : gmap string V) k e :
  getitem d k = Raise e → e = KeyError (KStr k).
Proof. unfold getitem. destruct (d !! k); [done | by intros [= <-]]. Qed.

Lemma encode_utf8_raises s e : encode_utf8 s = Raise e → e = UnicodeEncodeError.
Proof.
  induction s as [|c s IH]; cbn [encode_utf8]; [done|].
  destruct (utf8_cp c); [|by intros [= <-]].
  destruct (encode_utf8 s); [done|]. intros [= <-]. by apply IH.
Qed.

Lemma mapM_result_raises {A B} (f : A → result B) l e :
  mapM f l = Raise e → ∃ a, a ∈ l ∧ f a = Raise e.
Proof.
  induction l as [|a l IH]; cbn [mapM]; [done|].
  destruct (f a) eqn:Ha; cbn [mbind result_bind].
  - destruct (mapM f l); [done|]. cbn [mbind result_bind]. intros [= <-].
    destruct IH as (a' & ? & ?); [done|]. exists a'. split; [by right | done].
  - intros [= <-]. exists a. split; [by left | done].
Qed.

Lemma decode_results_raises rs e :
  decode_results rs = Raise e → ∃ r, r ∈ rs ∧ _from_hash r = Raise e.
Proof.
  induction rs as [|r rs IH]; cbn [decode_results]; [done|].
  case_decide.
  - intros (r' & ? & ?)%IH. exists r'. split; [by right | done].
  - destruct (_from_hash r) eqn:Hr; cbn [mbind result_bind].
    + destruct (decode_results rs); [done|]. cbn [mbind result_bind]. intros [= <-].
      destruct IH as (r' & ? & ?); [done|]. exists r'. split; [by right | done].
    + intros [= <-]. exists r. split; [by left | done].
Qed.

(** The only [NotFound] of the batch get is the one of its guard. *)
Lemma find_order_details_by_id_NotFound client ids msg :
  find_order_details_by_id client ids = Raise (NotFound msg) →
  msg = text "No products found for the given IDs.".
Proof.
  unfold find_order_details_by_id.
  destruct (mapM _format_key ids) as [keys|e] eqn:Hkeys; cbn [mbind result_bind].
  2:{ intros [= ->]. apply mapM_result_raises in Hkeys as (id & _ & Hid).
      by apply format_key_raises in Hid. }
  destruct (mapM (hgetall client) keys) as [rs|e] eqn:Hrs;
    cbn [mbind result_bind].
  - destruct (decode_results rs) as [[|p ps]|e] eqn:Hd; cbn [mbind result_bind];
      [by intros [= <-] | done |].
    intros [= ->]. apply decode_results_raises in Hd as (r & _ & Hr).
    by apply from_hash_raises in Hr as [[? [=]] | [[=] | [=]]].
  - intros [= ->]. apply mapM_result_raises in Hrs as (k & _ & Hk).
    unfold hgetall in Hk. destruct (encode_utf8 k) eqn:Ek; [done|].
    cbn [mbind result_bind] in Hk. injection Hk as ->.
    by apply encode_utf8_raises in Ek.
Qed.

(** The products of a batch get carry no ['product_id']. *)
Lemma find_products_lack_product_id client ids products :
  find_order_details_by_id client ids = Ok products →
  mapM (λ item : gmap string scalar, getitem item "product_id") products
  = Raise (KeyError (KStr "product_id")).
Proof.
  intros [Hne Hget]%find_order_details_by_id_Ok.
  destruct products as [|p ps]; [done|].
  apply mapM_result_Forall2 in Hget. inversion Hget as [|id0 ? ids0 ? Hp _ Hf]; subst.
  by apply get_record in Hp as (id & title & cap & speed & stock & ->).
Qed.

Lemma product_map_of_raises products acc e :
  product_map_of products acc = Raise e → e = KeyError (KStr "id").
Proof.
  revert acc. induction products as [|p ps IH]; intros acc; cbn [product_map_of]; [done|].
  unfold getitem. destruct (p !! "id"); cbn [mbind result_bind]; [apply IH|].
  by intros [= <-].
Qed.

Lemma enrich_raises m image_root item e :
  enrich m image_root item = Raise e → (∃ k, e = KeyError k) ∨ e = ValueError.
Proof.
  unfold enrich, getitem. destruct (item !! "product_id") as [pid|];
    cbn [mbind result_bind]; [|intros [= <-]; left; by eexists].
  destruct (m !! pid); cbn [mbind result_bind]; [|intros [= <-]; left; by eexists].
  destruct (format_str pid) as [s|] eqn:Hs; cbn [mbind result_bind]; [done|].
  apply format_str_raises in Hs as ->. intros [= <-]. by right.
Qed.

Lemma enrich_Ok m image_root item line :
  enrich m image_root item = Ok line →
  ∃ pid product, item !! "product_id" = Some pid ∧ m !! pid = Some product
                 ∧ line = enriched_line image_root item product.
Proof.
  unfold enrich, enriched_line, getitem. destruct (item !! "product_id") as [pid|];
    cbn [mbind result_bind]; [|done].
  destruct (m !! pid) as [p|] eqn:Hp; cbn [mbind result_bind]; [|done].
  destruct (format_str pid) as [s|] eqn:Hs; cbn [mbind result_bind]; [|done].
  apply format_str_Ok in Hs as ->. intros [= <-]. by exists pid, p.
Qed.

Lemma filter_has_record_nil client (ids : list scalar) :
  filter (has_record client) ids = [] ↔ Forall (λ id, has_record client id = false) ids.
Proof.
  induction ids as [|id ids IH]; [done|]. rewrite filter_cons, Forall_cons, <- IH.
  destruct (has_record client id) eqn:Hrec; case_decide; try done.
  - split; [done | by intros [[=] _]].
  - tauto.
Qed.

(** The batch get over a decodable store, by the requested ids' records. *)
Lemma find_order_details_by_id_decodable client ids :
  decodable client → Forall sendable ids →
  if decide (filter (has_record client) ids = [])
  then find_order_details_by_id client ids
       = Raise (NotFound (text "No products found for the given IDs."))
  else ∃ products, find_order_details_by_id client ids = Ok products
                   ∧ length products = length (filter (has_record client) ids).
Proof.
  intros Hc Hids. rewrite find_order_details_by_id_hits by done.
  destruct (mapM_result_is_ok (get client) (filter (has_record client) ids))
    as [ps Hps].
  { apply Forall_forall. intros id [Hrec Hin]%list_elem_of_filter.
    destruct (has_record_get client id Hc) as [p ->]; [|done].
    by destruct (has_record client id). }
  rewrite Hps. pose proof (mapM_result_length _ _ _ Hps) as Hlen.
  case_decide as Hnil.
  - rewrite Hnil in Hlen. by destruct ps.
  - destruct ps as [|p ps]; [|by eexists].
    destruct (filter _ ids); done.
Qed.

Section Calls.
Context {orders : OrdersService}.
Variable config : gmap string (list N).
Variable dump : gmap string (list (gmap string scalar)) → gmap string (list (gmap string scalar)).

(** X14.  Whatever [_get_order] returns is sound.  When it returns, the orders
    service has returned an order for the requested id, the image root is
    configured, the calls issued are [get_order] followed by one batch get
    with the product ids of the order's lines in line order, and the result
    is that order with every line enriched by a product that carries the
    line's [product_id] as its [id] and that the store returns for one of
    the requested ids. *)
Theorem get_order_result_is_sound wanted (w : world) enriched :
  (_get_order config wanted w).1 = Ok enriched →
  ∃ order image_root ids details,
    get_order wanted (orders_db w) = Ok order
    ∧ config !! "PRODUCT_IMAGE_ROOT" = Some image_root
    ∧ mapM (λ item, getitem item "product_id") (order_details order) = Ok ids
    ∧ rpc_log (_get_order config wanted w).2
      = rpc_log w ++ [orders_get_order wanted; products_get_products_by_id ids]
    ∧ enriched = with_details order details
    ∧ Forall2 (λ item line,
                 ∃ product_id product requested,
                   item !! "product_id" = Some product_id
                   ∧ product !! "id" = Some product_id
                   ∧ requested ∈ ids
                   ∧ get (products_db w) requested = Ok product
                   ∧ line = enriched_line image_root item product)
              (order_details order) details.
Proof.
  unfold _get_order, mbind, gw_bind, lift, orders_rpc_get_order,
    products_rpc_get_products_by_id, ProductsService.get_products_by_id.
  destruct (get_order wanted (orders_db w)) as [order|]; [|done].
  destruct (mapM _ (order_details order)) as [ids|] eqn:Hids; [|done].
  cbn [products_db called].
  destruct (find_order_details_by_id (products_db w) ids) as [products|] eqn:Hfind;
    [|done].
  destruct (product_map_of products ∅) as [m|] eqn:Hm; [|done].
  destruct (getitem config "PRODUCT_IMAGE_ROOT") as [image_root|] eqn:Hroot; [|done].
  destruct (mapM (enrich m image_root) (order_details order)) as [details|] eqn:Hd;
    [|done].
  cbn. intros [= <-]. exists order, image_root, ids, details.
  split_and!; [done | by apply getitem_Ok | done | by rewrite <- app_assoc | done |].
  apply mapM_result_Forall2 in Hd. eapply Forall2_impl; [exact Hd|].
  intros item line (pid & p & Hpid & Hp & ->)%enrich_Ok. cbn beta.
  destruct (product_map_of_sound _ _ _ Hm _ _ Hp) as [[Hin Hid]|Hacc];
    [|by rewrite lookup_empty in Hacc].
  apply find_order_details_by_id_Ok in Hfind as [_ Hget].
  apply mapM_result_Forall2 in Hget.
  apply list_elem_of_lookup_1 in Hin as [i Hi].
  destruct (Forall2_lookup_r _ _ _ _ _ Hget Hi) as (requested & Hr & Hgetr).
  exists pid, p, requested. split_and!; [done..| |done|done].
  apply list_elem_of_lookup_2 in Hr. by apply list_elem_of_filter in Hr as [_ ?].
Qed.

(** X15.  For an existing order whose lines carry ids the client can send, over a
    store whose records all decode, [_get_order] raises [ProductNotFound]
    with the message [No products found for the given IDs.] exactly when
    none of the order's products has a record (as for an order without
    lines). *)
Theorem get_order_raises_ProductNotFound_iff_no_product_exists
    wanted order ids (w : world) :
  decodable (products_db w) →
  get_order wanted (orders_db w) = Ok order →
  mapM (λ item, getitem item "product_id") (order_details order) = Ok ids →
  Forall sendable ids →
  (_get_order config wanted w).1
  = Raise (ProductNotFound (text "No products found for the given IDs."))
  ↔ Forall (λ id, has_record (products_db w) id = false) ids.
Proof.
  intros Hc Horder Hids Hsend. rewrite <- filter_has_record_nil.
  unfold _get_order, mbind, gw_bind, lift, orders_rpc_get_order,
    products_rpc_get_products_by_id, ProductsService.get_products_by_id.
  rewrite Horder, Hids. cbn [products_db called].
  pose proof (find_order_details_by_id_decodable _ _ Hc Hsend) as Hfind.
  case_decide as Hnil.
  - rewrite Hfind. done.
  - destruct Hfind as (products & -> & _). split; [|done].
    destruct (product_map_of products ∅) as [m|e] eqn:Hm.
    2:{ apply product_map_of_raises in Hm as ->. done. }
    unfold getitem at 1. destruct (config !! "PRODUCT_IMAGE_ROOT") as [root|]; [|done].
    destruct (mapM (enrich m root) (order_details order)) as [details|e] eqn:Hd; [done|].
    by apply mapM_result_raises in Hd as (item & _ & [[k ->] | ->]%enrich_raises).
Qed.

(** X16.  [_create_order] places the order when every product exists.  For a
    payload with at least one line, of each of whose ids [get] returns a
    product, the gateway issues one batch get with the lines' ids (in line
    order, repetitions kept), then one [create_order] with the serialized
    lines, and returns the [id] of the orders service's answer. *)
Theorem create_order_places_the_order
    order_data items ids products details result db' id (w : world) :
  order_data !! "order_details" = Some items →
  mapM (λ item, getitem item "product_id") items = Ok ids →
  ids ≠ [] →
  Forall2 (λ id product, get (products_db w) id = Ok product) ids products →
  dump order_data !! "order_details" = Some details →
  create_order details (orders_db w) = (Ok result, db') →
  result !! "id" = Some id →
  _create_order dump order_data w
  = (Ok id,
     World (products_db w) db'
           (rpc_log w ++ [products_get_products_by_id ids;
                          orders_create_order details])).
Proof.
  intros Hdata Hids Hne Hall Hdump Hcreate Hid.
  unfold _create_order, mbind, gw_bind, lift, mret, gw_ret.
  rewrite (getitem_Some _ _ _ Hdata), Hids.
  unfold products_rpc_get_products_by_id, ProductsService.get_products_by_id.
  rewrite (find_order_details_by_id_all_hits _ _ _ Hall).
  2:{ intros ->. by apply Forall2_nil_inv_r in Hall. }
  rewrite decide_False.
  2:{ apply Forall2_length in Hall. lia. }
  rewrite (getitem_Some _ _ _ Hdump).
  unfold orders_rpc_create_order. cbn [orders_db products_db rpc_log called].
  rewrite Hcreate, (getitem_Some _ _ _ Hid). by rewrite <- app_assoc.
Qed.

(** X17.  For a payload whose lines carry ids the client can send, when none
    of the payload's products has a record (a payload without lines
    included), [_create_order] raises [ProductNotFound] with the
    batch get's message [No products found for the given IDs.] after that
    single call; [create_order] is not called. *)
Theorem create_order_of_unknown_products order_data items ids (w : world) :
  order_data !! "order_details" = Some items →
  mapM (λ item, getitem item "product_id") items = Ok ids →
  Forall sendable ids →
  Forall (λ id, has_record (products_db w) id = false) ids →
  _create_order dump order_data w
  = (Raise (ProductNotFound (text "No products found for the given IDs.")),
     called (products_get_products_by_id ids) w).
Proof.
  intros Hdata Hids Hsend Hnone.
  unfold _create_order, mbind, gw_bind, lift.
  rewrite (getitem_Some _ _ _ Hdata), Hids.
  unfold products_rpc_get_products_by_id, ProductsService.get_products_by_id.
  rewrite find_order_details_by_id_hits by done.
  apply filter_has_record_nil in Hnone. by rewrite Hnone.
Qed.

(** X18.  Over a store whose records all decode, a payload that references both a
    product with a record and a product without one makes [_create_order]
    raise [KeyError] on ['product_id'] after the batch get, its only call:
    the reporting branch reads ['product_id'] from the products, which
    carry ['id']. *)
Theorem create_order_partial_miss_raises_KeyError
    order_data items ids known unknown (w : world) :
  decodable (products_db w) →
  order_data !! "order_details" = Some items →
  mapM (λ item, getitem item "product_id") items = Ok ids →
  Forall sendable ids →
  known ∈ ids → has_record (products_db w) known = true →
  unknown ∈ ids → has_record (products_db w) unknown = false →
  _create_order dump order_data w
  = (Raise (KeyError (KStr "product_id")),
     called (products_get_products_by_id ids) w).
Proof.
  intros Hc Hdata Hids Hsend Hk Hkrec Hu Hurec.
  pose proof (find_order_details_by_id_decodable _ _ Hc Hsend) as Hfind.
  rewrite decide_False in Hfind.
  2:{ intros Hnil. apply filter_has_record_nil in Hnil.
      rewrite Forall_forall in Hnil. specialize (Hnil _ Hk). congruence. }
  destruct Hfind as (products & Hfind & Hlen).
  eapply create_order_partial_miss; [done..|]. rewrite Hlen.
  assert (length (filter (has_record (products_db w)) ids) < length ids)%nat; [|lia].
  apply (length_filter_lt _ _ unknown); [done|].
  intros H. cbn beta in H. by rewrite Hurec in H.
Qed.

(** X19.  [_create_order] itself never raises a [ProductNotFound] that names a
    product.  A [ProductNotFound] it raises is either the batch get's
    [No products found for the given IDs.], raised after that single call,
    or one that [create_order] of the orders service raised. *)
Theorem create_order_never_names_the_missing_product order_data (w w' : world) msg :
  _create_order dump order_data w = (Raise (ProductNotFound msg), w') →
  (msg = text "No products found for the given IDs."
   ∧ ∃ ids, w' = called (products_get_products_by_id ids) w)
  ∨ ∃ details, create_order details (orders_db w)
               = (Raise (ProductNotFound msg), orders_db w').
Proof.
  unfold _create_order, mbind, gw_bind, lift, mret, gw_ret.
  destruct (getitem order_data "order_details") as [items|] eqn:Hitems.
  2:{ unfold getitem in Hitems. destruct (order_data !! _); [done|].
      injection Hitems as <-. done. }
  destruct (mapM _ items) as [ids|e] eqn:Hids.
  2:{ apply mapM_result_raises in Hids as (item & _ & Hitem).
      unfold getitem in Hitem. destruct (item !! _); [done|].
      injection Hitem as <-. done. }
  unfold products_rpc_get_products_by_id, ProductsService.get_products_by_id.
  destruct (find_order_details_by_id (products_db w) ids) as [products|e] eqn:Hfind.
  2:{ destruct e; try done. cbn [from_products]. intros [= <- <-].
      apply find_order_details_by_id_NotFound in Hfind. left. split; [done|].
      by exists ids. }
  case_decide as Hlen.
  { rewrite (find_products_lack_product_id _ _ _ Hfind). done. }
  destruct (getitem (dump order_data) "order_details") as [details|] eqn:Hdump.
  2:{ unfold getitem in Hdump. destruct (dump order_data !! _); [done|].
      injection Hdump as <-. done. }
  unfold orders_rpc_create_order. cbn [orders_db products_db rpc_log called].
  destruct (create_order details (orders_db w)) as [[result|e] db'] eqn:Hcreate.
  - unfold getitem. destruct (result !! "id"); [done|]. done.
  - intros [= -> <-]. right. exists details. done.
Qed.

(** X20.  [get_orders] lists the first page or fails: without a [page] and a
    [limit] parameter it calls [list_orders(1, 10)]; as soon as one of the
    two is given it raises [TypeError] without calling the orders service. *)
Theorem get_orders_lists_the_first_page_or_fails args (w : world) :
  (args !! "page" = None ∧ args !! "limit" = None
   ∧ get_orders args w = orders_rpc_list_orders (VInt 1) (VInt 10) w)
  ∨ ((is_Some (args !! "page") ∨ is_Some (args !! "limit"))
     ∧ get_orders args w = (Raise TypeError, w)).
Proof.
  unfold get_orders, args_get, mbind, gw_bind, lift.
  destruct (args !! "page") as [page|], (args !! "limit") as [limit|]; cbn.
  - right. split; [left; by eexists | done].
  - right. split; [left; by eexists | done].
  - right. split; [right; by eexists | done].
  - left. done.
Qed.

End Calls.

(** X21.  The loop of [_create_order] that reports a missing product passes when
    every requested id is among the found ones, and otherwise stops at the
    first requested id that is not: it raises [ProductNotFound] naming that
    id, or, when that id is an [int] beyond the digit limit, the
    [ValueError] of its conversion to text. *)
Theorem report_missing_names_the_first_absent_id ids present :
  match report_missing ids present with
  | Ok _ => Forall (λ id, id ∈ present) ids
  | Raise e =>
      ∃ before id after,
        ids = before ++ id :: after
        ∧ Forall (λ id, id ∈ present) before
        ∧ (id ∉ present)
        ∧ ((format_str id = Ok (py_str id)
            ∧ e = ProductNotFound (text "Product Id " ++ py_str id))
           ∨ (format_str id = Raise ValueError ∧ e = ValueError))
  end.
Proof.
  induction ids as [|id ids IH]; cbn [report_missing]; [done|].
  case_decide as Hin.
  - destruct (report_missing ids present) as [|e].
    + by constructor.
    + destruct IH as (before & id' & after & -> & Hb & Hid & He).
      exists (id :: before), id', after. split_and!; [done | by constructor | done..].
  - destruct (format_str id) as [s|e] eqn:Hs; cbn [mbind result_bind];
      exists [], id, ids; (split_and!; [done..|]).
    + pose proof (format_str_Ok _ _ Hs) as ->. by left.
    + pose proof (format_str_raises _ _ Hs) as ->. by right.
Qed.

(** ** The further properties at concrete inputs *)

Lemma get_raises_NotFound_iff_no_record_witness :
  get example_store (VStr (text "ghost"))
  = Raise (NotFound (text "Product ID " ++ py_str (VStr (text "ghost"))
                     ++ text " does not exist"))
  ↔ has_record example_store (VStr (text "ghost")) = false.
Proof.
  apply (get_raises_NotFound_iff_no_record example_store (VStr (text "ghost"))).
  compute_done.
Defined.

Lemma create_twice_is_create_once_witness :
  let client' :=
    <["products:LZ127" := product_hash "LZ127" "LZ 127 Graf Zeppelin" "20" "128" "3"]>
      example_store in
  create example_store
    (product_record (text "LZ127") (text "LZ 127 Graf Zeppelin") 20 128 3)
  = Ok client'
  ∧ create client'
      (product_record (text "LZ127") (text "LZ 127 Graf Zeppelin") 20 128 3)
    = Ok client'.
Proof.
  assert (create example_store
            (product_record (text "LZ127") (text "LZ 127 Graf Zeppelin") 20 128 3)
          = Ok (<["products:LZ127" :=
                   product_hash "LZ127" "LZ 127 Graf Zeppelin" "20" "128" "3"]>
                  example_store)) as H by compute_done.
  split; [exact H|].
  exact (create_twice_is_create_once example_store _ _ H).
Defined.

Lemma create_leaves_other_products_witness :
  let client' :=
    <["products:LZ127" := product_hash "LZ127" "LZ 127 Graf Zeppelin" "20" "128" "3"]>
      example_store in
  get client' (VStr (text "LZ129")) = get example_store (VStr (text "LZ129"))
  ∧ has_record client' (VStr (text "LZ129"))
    = has_record example_store (VStr (text "LZ129")).
Proof.
  apply (create_leaves_other_products example_store
           (product_record (text "LZ127") (text "LZ 127 Graf Zeppelin") 20 128 3)
           _ (VStr (text "LZ127")) (VStr (text "LZ129"))).
  - compute_done.
  - reflexivity.
  - compute_done.
Defined.

Lemma delete_removes_the_record_witness :
  ∃ client',
    delete example_store (VStr (text "the_enigma")) = Ok (1, client')
    ∧ get client' (VStr (text "the_enigma"))
      = Raise (NotFound (text "Product ID " ++ py_str (VStr (text "the_enigma"))
                         ++ text " does not exist"))
    ∧ ∀ other, py_str other ≠ py_str (VStr (text "the_enigma")) →
               get client' other = get example_store other.
Proof.
  apply (delete_removes_the_record example_store (VStr (text "the_enigma")) the_enigma).
  compute_done.
Defined.

Lemma delete_raises_NotFound_iff_no_record_witness :
  delete example_store (VStr (text "ghost"))
  = Raise (NotFound (text "Product ID " ++ py_str (VStr (text "ghost"))
                     ++ text " does not exist"))
  ↔ has_record example_store (VStr (text "ghost")) = false.
Proof.
  apply (delete_raises_NotFound_iff_no_record example_store (VStr (text "ghost"))).
  - compute_done.
  - compute_done.
Defined.

Lemma decrement_stock_changes_only_the_stock_witness :
  let client' :=
    <["products:LZ129" := product_hash "LZ129" "LZ 129 Hindenburg" "50" "135" "7"]>
      example_store in
  product_record (text "LZ129") (text "LZ 129 Hindenburg") 50 135 11 !! "in_stock"
  = Some (VInt (7 + 4))
  ∧ get client' (VStr (text "LZ129"))
    = Ok (<["in_stock" := VInt 7]>
            (product_record (text "LZ129") (text "LZ 129 Hindenburg") 50 135 11))
  ∧ ∀ other, py_str other ≠ py_str (VStr (text "LZ129")) →
             get client' other = get example_store other.
Proof.
  apply (decrement_stock_changes_only_the_stock example_store (VStr (text "LZ129")) 4 7).
  - compute_done.
  - compute_done.
Defined.

Lemma decrement_stock_after_create_witness :
  ∃ client1 client2,
    create example_store
      (product_record (text "LZ127") (text "LZ 127 Graf Zeppelin") 20 128 3)
    = Ok client1
    ∧ decrement_stock client1 (VStr (text "LZ127")) 5 = Ok (3 - 5, client2)
    ∧ get client2 (VStr (text "LZ127"))
      = Ok (product_record (text "LZ127") (text "LZ 127 Graf Zeppelin") 20 128 (3 - 5)).
Proof.
  apply (decrement_stock_after_create example_store (text "LZ127")
           (text "LZ 127 Graf Zeppelin") 20 128 3 5).
  - compute_done.
  - compute_done.
  - reflexivity.
  - reflexivity.
  - reflexivity.
  - reflexivity.
  - reflexivity.
Defined.

Lemma batch_get_of_a_concatenation_witness :
  find_order_details_by_id example_store
    ([VStr (text "the_odyssey"); VStr (text "ghost")]
     ++ [VStr (text "the_enigma"); VStr (text "the_odyssey")])
  = Ok ([the_odyssey] ++ [the_enigma; the_odyssey]).
Proof.
  apply (batch_get_of_a_concatenation example_store).
  - compute_done.
  - compute_done.
Defined.

Lemma batch_get_never_skips_a_broken_record_witness :
  let client : gmap string (gmap string string) :=
    <["products:ghost" := {["in_stock" := "-4"%string]}]> example_store in
  ∃ e, find_order_details_by_id client
         [VStr (text "the_odyssey"); VStr (text "ghost")] = Raise e.
Proof.
  apply (batch_get_never_skips_a_broken_record _ _ (VStr (text "ghost"))
           (KeyError (KBytes "id"))).
  - compute_done.
  - right. left.
  - compute_done.
  - compute_done.
Defined.

Lemma reads_of_a_decodable_store_witness :
  (∀ product_id, sendable product_id →
     if has_record example_store product_id
     then ∃ product, get example_store product_id = Ok product
                     ∧ is_product_record product
     else get example_store product_id
          = Raise (NotFound (text "Product ID " ++ py_str product_id
                             ++ text " does not exist")))
  ∧ (∀ orders_id, Forall sendable orders_id →
       (∃ products, find_order_details_by_id example_store orders_id = Ok products
                    ∧ Forall is_product_record products)
       ∨ find_order_details_by_id example_store orders_id
         = Raise (NotFound (text "No products found for the given IDs."))).
Proof.
  apply (reads_of_a_decodable_store example_store). compute_done.
Defined.

Lemma store_stays_decodable_witness :
  (∀ id title cap speed stock client',
     create example_store (product_record id title cap speed stock) = Ok client' →
     decodable client')
  ∧ (∀ product_id n client',
       delete example_store product_id = Ok (n, client') → decodable client')
  ∧ (∀ product_id amount n client',
       has_record example_store product_id = true →
       decrement_stock example_store product_id amount = Ok (n, client') →
       decodable client').
Proof.
  apply (store_stays_decodable example_store). compute_done.
Defined.

Lemma decrement_stock_of_a_missing_id_breaks_the_store_witness :
  let client' : gmap string (gmap string string) :=
    <["products:ghost" := {["in_stock" := "-4"%string]}]> example_store in
  -4 = - 4
  ∧ has_record client' (VStr (text "ghost")) = true
  ∧ get client' (VStr (text "ghost")) = Raise (KeyError (KBytes "id"))
  ∧ ¬ decodable client'.
Proof.
  apply (decrement_stock_of_a_missing_id_breaks_the_store example_store
           (VStr (text "ghost")) 4 (-4)).
  - compute_done.
  - compute_done.
Defined.

Lemma get_order_result_is_sound_witness :
  let w := example_world [order_1234] in
  let image_root := text "http://www.example.com/airship/images" in
  ∃ order image_root ids details,
    get_order 1234 (orders_db w) = Ok order
    ∧ example_config !! "PRODUCT_IMAGE_ROOT" = Some image_root
    ∧ mapM (λ item, getitem item "product_id") (order_details order) = Ok ids
    ∧ rpc_log (_get_order example_config 1234 w).2
      = rpc_log w ++ [orders_get_order 1234; products_get_products_by_id ids]
    ∧ with_details order_1234
        (zip_with (enriched_line (text "http://www.example.com/airship/images"))
                  (order_details order_1234) [the_odyssey; the_enigma; the_odyssey])
      = with_details order details
    ∧ Forall2 (λ item line,
                 ∃ product_id product requested,
                   item !! "product_id" = Some product_id
                   ∧ product !! "id" = Some product_id
                   ∧ requested ∈ ids
                   ∧ get (products_db w) requested = Ok product
                   ∧ line = enriched_line image_root item product)
              (order_details order) details.
Proof.
  apply (get_order_result_is_sound example_config 1234 (example_world [order_1234])).
  compute_done.
Defined.

Lemma get_order_raises_ProductNotFound_iff_no_product_exists_witness :
  let w := example_world [Order 9 [line "ghost" "5.99" 2; line "phantom" "1.00" 1]] in
  (_get_order example_config 9 w).1
  = Raise (ProductNotFound (text "No products found for the given IDs."))
  ↔ Forall (λ id, has_record (products_db w) id = false)
           [VStr (text "ghost"); VStr (text "phantom")].
Proof.
  apply (get_order_raises_ProductNotFound_iff_no_product_exists example_config 9
           (Order 9 [line "ghost" "5.99" 2; line "phantom" "1.00" 1])).
  - compute_done.
  - reflexivity.
  - reflexivity.
  - compute_done.
Defined.

Lemma create_order_places_the_order_witness :
  let order_data : gmap string (list (gmap string scalar)) :=
    {["order_details" := [line "the_odyssey" "99.99" 1; line "the_enigma" "5.99" 2]]} in
  _create_order plain_dump order_data (example_world [order_1234])
  = (Ok (VInt 2),
     @World numbering_orders example_store
       [order_1234;
        Order 2 [line "the_odyssey" "99.99" 1; line "the_enigma" "5.99" 2]]
       ([] ++ [products_get_products_by_id
                 [VStr (text "the_odyssey"); VStr (text "the_enigma")];
               orders_create_order
                 [line "the_odyssey" "99.99" 1; line "the_enigma" "5.99" 2]])).
Proof.
  apply (create_order_places_the_order plain_dump _
           [line "the_odyssey" "99.99" 1; line "the_enigma" "5.99" 2]
           [VStr (text "the_odyssey"); VStr (text "the_enigma")]
           [the_odyssey; the_enigma]
           [line "the_odyssey" "99.99" 1; line "the_enigma" "5.99" 2]
           {["id" := VInt 2]} _ (VInt 2) (example_world [order_1234])).
  - compute_done.
  - reflexivity.
  - discriminate.
  - repeat (constructor; [compute_done|]). constructor.
  - compute_done.
  - reflexivity.
  - compute_done.
Defined.

Lemma create_order_of_unknown_products_witness :
  let order_data : gmap string (list (gmap string scalar)) :=
    {["order_details" := [line "ghost" "5.99" 2; line "phantom" "1.00" 1]]} in
  _create_order plain_dump order_data (example_world [])
  = (Raise (ProductNotFound (text "No products found for the given IDs.")),
     called (products_get_products_by_id [VStr (text "ghost"); VStr (text "phantom")])
            (example_world [])).
Proof.
  apply (create_order_of_unknown_products plain_dump _
           [line "ghost" "5.99" 2; line "phantom" "1.00" 1]).
  - compute_done.
  - reflexivity.
  - compute_done.
  - compute_done.
Defined.

Lemma create_order_partial_miss_raises_KeyError_witness :
  _create_order plain_dump payload_with_unknown (example_world [])
  = (Raise (KeyError (KStr "product_id")),
     called (products_get_products_by_id
               [VStr (text "the_odyssey"); VStr (text "no_such_book");
                VStr (text "the_enigma")])
            (example_world [])).
Proof.
  apply (create_order_partial_miss_raises_KeyError plain_dump payload_with_unknown
           [line "the_odyssey" "99.99" 1; line "no_such_book" "5.99" 2;
            line "the_enigma" "5.99" 2] _
           (VStr (text "the_odyssey")) (VStr (text "no_such_book"))).
  - compute_done.
  - compute_done.
  - reflexivity.
  - compute_done.
  - left.
  - compute_done.
  - right. left.
  - compute_done.
Defined.

Lemma create_order_never_names_the_missing_product_witness :
  let order_data : gmap string (list (gmap string scalar)) :=
    {["order_details" := [line "ghost" "5.99" 2]]} in
  let w := example_world [] in
  let w' := called (products_get_products_by_id [VStr (text "ghost")]) w in
  (text "No products found for the given IDs."
   = text "No products found for the given IDs."
   ∧ ∃ ids, w' = called (products_get_products_by_id ids) w)
  ∨ ∃ details, create_order details (orders_db w)
               = (Raise (ProductNotFound (text "No products found for the given IDs.")),
                  orders_db w').
Proof.
  apply (create_order_never_names_the_missing_product plain_dump
           {["order_details" := [line "ghost" "5.99" 2]]}).
  compute_done.
Defined.
